(** * Test-network bootstrap helpers of evmos
    (testutil/integration/evmos/network/setup.go)

    A shallow embedding of the helpers that assemble validators, signers,
    accounts, balances and the per-module genesis sections, together with the
    properties of them stated by the specification.

    Conventions of the embedding.
    - A Go [int] or [int64] is a [Z]; a slice is a [list]; a [map[string]T]
      that is only read, or only built and returned, is a [gmap string T].
    - The genesis map is mutated in place by the composers and is therefore
      kept in a store: a map value is [nilmap] or a reference [mapat l] into a
      [heap] of map objects (see [M]).
    - A run-time panic is the outcome [None]; a Go [error] result is a value
      of type [error], returned next to (or instead of) the normal result.
    - Values of the SDK that the helpers only pass around are either given the
      shape the SDK gives them (records) or left abstract ([AbstractTypes],
      [Library]); the SDK operations the properties depend on are modelled in
      the modules named after the import aliases of setup.go ([sdkmath],
      [sdktypes], ...), with the checks that make them panic.
    - Pointers handed to the helpers are taken to be non-nil, and the JSON
      codec of the application is taken to be total on the genesis types.
    - The helpers expect validated inputs.  Where a property needs one of them
      (coins sorted by denomination, a genesis map that exists, keys that
      differ) the statement says so; what happens outside is shown by the
      examples at the end. *)

From Stdlib Require Import ZArith List Permutation Ascii.
From stdpp Require Import base option list gmap strings sorting.

Local Open Scope Z_scope.

(** ** cosmossdk.io/math *)

Module sdkmath.

(** [Int] wraps a big integer whose magnitude must fit [MaxBitLen] bits;
    arithmetic that leaves this range panics. *)
Definition Int := Z.
Definition MaxBitLen : Z := 256.

Definition fitsBitLen (x : Z) : bool := Z.abs x <? 2 ^ MaxBitLen.

Definition ZeroInt : Int := 0.

Definition Int_IsZero (i : Int) : bool := i =? 0.
Definition Int_IsPositive (i : Int) : bool := 0 <? i.

(** [Int.Add]: the sum, or a panic ([None]) on overflow. *)
Definition Int_Add (i i2 : Int) : option Int :=
  let res := i + i2 in
  if fitsBitLen res then Some res else None.

(** [LegacyDec]: a fixed-point decimal with [LegacyPrecision] fractional
    digits, stored as the integer [value * 10^18]. *)
Definition LegacyPrecision : Z := 18.
Record LegacyDec := mkDec { dec_scaled : Z }.

Definition LegacyZeroDec : LegacyDec := mkDec 0.
Definition LegacyOneDec : LegacyDec := mkDec (10 ^ LegacyPrecision).

End sdkmath.

(** ** github.com/cosmos/cosmos-sdk/types: coins *)

Module sdktypes.
Import sdkmath.

Record Coin := mkCoin { Denom : string; Amount : Int }.
Abbreviation Coins := (list Coin).

Definition Coin_IsZero (coin : Coin) : bool := Int_IsZero (Amount coin).
Definition Coin_IsPositive (coin : Coin) : bool := Int_IsPositive (Amount coin).

(** [Coin.Add] panics when the denominations differ (and when the amount
    overflows). *)
Definition Coin_Add (coin coinB : Coin) : option Coin :=
  if String.eqb (Denom coin) (Denom coinB)
  then amt ← Int_Add (Amount coin) (Amount coinB); Some (mkCoin (Denom coin) amt)
  else None.

(** [coins.isSorted]: no coin has a denomination greater than its
    successor's. *)
Fixpoint isSorted (coins : Coins) : bool :=
  match coins with
  | c1 :: rest =>
      match rest with
      | c2 :: _ => String.leb (Denom c1) (Denom c2) && isSorted rest
      | [] => true
      end
  | [] => true
  end.

(** The denomination pattern [[a-zA-Z][a-zA-Z0-9/:._-]{2,127}]. *)
Definition isLetter (a : ascii) : bool :=
  let n := N_of_ascii a in
  ((65 <=? n) && (n <=? 90) || (97 <=? n) && (n <=? 122))%N.
Definition isDenomChar (a : ascii) : bool :=
  let n := N_of_ascii a in
  (isLetter a || (48 <=? n) && (n <=? 57)
   || (n =? 47) || (n =? 58) || (n =? 46) || (n =? 95) || (n =? 45))%N.
Definition ValidateDenom (denom : string) : bool :=
  match denom with
  | String.String a rest =>
      isLetter a && forallb isDenomChar (String.list_ascii_of_string rest)
      && (2 <=? String.length rest)%nat && (String.length rest <=? 127)%nat
  | String.EmptyString => false
  end.

Definition removeZeroCoins (coins : Coins) : Coins :=
  filter (fun c => Coin_IsZero c = false) coins.

(** [Coins.Sort]: ascending by denomination. *)
Fixpoint insertCoin (c : Coin) (coins : Coins) : Coins :=
  match coins with
  | [] => [c]
  | c' :: rest =>
      if String.leb (Denom c) (Denom c') then c :: coins
      else c' :: insertCoin c rest
  end.
Definition Sort (coins : Coins) : Coins := foldr insertCoin [] coins.

Fixpoint strictlyAscending (coins : Coins) : bool :=
  match coins with
  | c1 :: rest =>
      match rest with
      | c2 :: _ => String.ltb (Denom c1) (Denom c2) && strictlyAscending rest
      | [] => true
      end
  | [] => true
  end.

(** [Coins.Validate]: valid denominations, positive amounts, strictly
    ascending denominations. *)
Definition Validate (coins : Coins) : bool :=
  forallb (fun c => ValidateDenom (Denom c) && Coin_IsPositive c) coins
  && strictlyAscending coins.

Definition sanitizeCoins (coins : Coins) : Coins :=
  Sort (removeZeroCoins coins).

(** [NewCoins] panics on an invalid coin set. *)
Definition NewCoins (coins : list Coin) : option Coins :=
  let newCoins := sanitizeCoins coins in
  if Validate newCoins then Some newCoins else None.

(** The keys of the [uniqCoins] map of [safeAdd], ascending. *)
Fixpoint insertDenom (d : string) (ds : list string) : list string :=
  match ds with
  | [] => [d]
  | d' :: rest =>
      match String.compare d d' with
      | Lt => d :: ds
      | Eq => ds
      | Gt => d' :: insertDenom d rest
      end
  end.
Definition denomsOf (coins : Coins) : list string :=
  foldr insertDenom [] (map Denom coins).

(** The coins of one denomination, folded into one coin starting from a
    zero amount. *)
Definition comboCoin (denom : string) (cL : Coins) : option Coin :=
  foldl (fun combo c => combo ≫= fun combo => Coin_Add combo c)
        (Some (mkCoin denom (ZeroInt))) cL.

(** [Coins.Add], that is [safeAdd]: both operands must be sorted; coins are
    grouped by denomination, each group is summed, zero sums are dropped and
    the result is sorted.  Go visits the groups in an unspecified order and
    sorts afterwards; here they are visited in ascending order. *)
Definition Coins_Add (coins coinsB : Coins) : option Coins :=
  if negb (isSorted coins) then None
  else if negb (isSorted coinsB) then None
  else
    let all := coins ++ coinsB in
    coalesced ← mapM (fun denom =>
                        comboCoin denom (filter (fun c => Denom c = denom) all))
                     (denomsOf all);
    Some (filter (fun c => Coin_IsZero c = false) coalesced).

(** Specification-level reading of a coin list: the total amount it holds
    of one denomination. *)
Definition amountOf (denom : string) (coins : Coins) : Z :=
  foldr (fun c acc => if decide (Denom c = denom) then Amount c + acc else acc) 0 coins.

End sdktypes.

(** ** time *)

Module time.
Inductive Location := UTC | Local.

(** An instant: seconds and nanoseconds since the Unix epoch, and the
    location it is presented in. *)
Record Instant := mkInstant { sec : Z; nsec : Z; loc : Location }.

(** [time.Unix(sec, nsec)]: nanoseconds outside [0, 1e9) are carried into
    the seconds; the result is in the local location. *)
Definition Unix (s n : Z) : Instant :=
  mkInstant (s + n / 1000000000) (n mod 1000000000) Local.

(** [t.UTC()] *)
Definition toUTC (t : Instant) : Instant := mkInstant (sec t) (nsec t) UTC.
End time.

(** ** Errors and fallible results *)

(** A Go [error] is identified with its message. *)
Definition error := string.

(** A [(T, error)] result whose [T] is the zero value whenever the error is
    set. *)
Inductive result (A : Type) : Type :=
| Ok (a : A)
| Err (e : error).
Arguments Ok {A} a.
Arguments Err {A} e.

(** ** github.com/cometbft/cometbft: keys and validators *)

Module cmttypes.

(** [crypto.Address] and [HexBytes.String]: upper-case hexadecimal. *)
Definition Address := list Byte.byte.

Definition hexDigit (n : N) : ascii :=
  ascii_of_N (if (n <? 10)%N then 48 + n else 55 + n).
Definition hexByte (b : Byte.byte) : list ascii :=
  let n := Byte.to_N b in [hexDigit (n / 16); hexDigit (n mod 16)].
Definition Address_String (bz : Address) : string :=
  String.string_of_list_ascii (concat (map hexByte bz)).

(** A [crypto.PubKey] interface value, as the results of its methods. *)
Record PubKey := mkPubKey {
  PubKey_Address : Address;
  PubKey_Bytes : list Byte.byte;
  PubKey_Type : string }.

(** A [PrivValidator] interface value; only [GetPubKey] is used here. *)
Record PrivValidator := mkPrivValidator {
  GetPubKey : PubKey * option error }.

Record Validator := mkValidator {
  Address_ : Address;
  PubKey_ : PubKey;
  VotingPower : Z;
  ProposerPriority : Z }.

Definition NewValidator (pubKey : PubKey) (votingPower : Z) : Validator :=
  {| Address_ := PubKey_Address pubKey;
     PubKey_ := pubKey;
     VotingPower := votingPower;
     ProposerPriority := 0 |}.

Record ValidatorSet := mkValidatorSet {
  Validators : list Validator;
  Proposer : option Validator }.

(** The largest total voting power of a validator set: [MaxInt64 / 8]. *)
Definition MaxTotalVotingPower : Z := (2 ^ 63 - 1) / 8.

Definition totalVotingPower (vals : list Validator) : Z :=
  foldr (fun v acc => VotingPower v + acc) 0 vals.

(** What a validator is, apart from the proposer priority, which a
    validator set recomputes. *)
Definition identity (v : Validator) : Address * PubKey * Z :=
  (Address_ v, PubKey_ v, VotingPower v).

End cmttypes.

(** ** codec/types *)

Module codectypes.
(** [Any]: a serialized message together with the URL of its type. *)
Record Any := mkAny { TypeUrl : string; Value : list Byte.byte }.
End codectypes.

(** ** x/auth/types *)

Module authtypes.
Definition ModuleName : string := "auth".

Record BaseAccount := mkBaseAccount {
  Address : string;
  PubKey : option codectypes.Any;
  AccountNumber : Z;
  Sequence : Z }.

(** The only implementation of [GenesisAccount] built here. *)
Definition GenesisAccount := BaseAccount.
End authtypes.

(** ** x/bank/types *)

Module banktypes.
Definition ModuleName : string := "bank".

Record Balance := mkBalance { Address : string; Coins : sdktypes.Coins }.
End banktypes.

(** ** x/staking/types *)

Module stakingtypes.
Import sdkmath.

Definition ModuleName : string := "staking".
Definition BondedPoolName : string := "bonded_tokens_pool".

Inductive BondStatus := Unspecified | Unbonded | Unbonding | Bonded.

Record Description := mkDescription {
  Moniker : string; Identity : string; Website : string;
  SecurityContact : string; Details : string }.

(** The zero value [Description{}]. *)
Definition Description_zero : Description :=
  let empty := String.EmptyString in mkDescription empty empty empty empty empty.

Record CommissionRates := mkCommissionRates {
  Rate : LegacyDec; MaxRate : LegacyDec; MaxChangeRate : LegacyDec }.

Record Commission := mkCommission {
  Rates : CommissionRates;
  UpdateTime : time.Instant }.

Definition NewCommissionRates (rate maxRate maxChangeRate : LegacyDec)
  : CommissionRates := mkCommissionRates rate maxRate maxChangeRate.

Definition NewCommission (rate maxRate maxChangeRate : LegacyDec) : Commission :=
  {| Rates := NewCommissionRates rate maxRate maxChangeRate;
     UpdateTime := time.toUTC (time.Unix 0 0) |}.

Record Validator := mkValidator {
  OperatorAddress : string;
  ConsensusPubkey : codectypes.Any;
  Jailed : bool;
  Status : BondStatus;
  Tokens : Int;
  DelegatorShares : LegacyDec;
  Description_ : Description;
  UnbondingHeight : Z;
  UnbondingTime : time.Instant;
  Commission_ : Commission;
  MinSelfDelegation : Int;
  UnbondingOnHoldRefCount : Z;
  UnbondingIds : list Z }.

Record Delegation := mkDelegation {
  DelegatorAddress : string;
  ValidatorAddress : string;
  Shares : LegacyDec }.

Definition NewDelegation (delegatorAddr validatorAddr : string) (shares : LegacyDec)
  : Delegation := mkDelegation delegatorAddr validatorAddr shares.

Record Params := mkParams {
  UnbondingTime_ : Z;
  MaxValidators : Z;
  MaxEntries : Z;
  HistoricalEntries : Z;
  BondDenom : string;
  MinCommissionRate : LegacyDec }.

(** [params.BondDenom = denom] *)
Definition setBondDenom (params : Params) (denom : string) : Params :=
  {| UnbondingTime_ := UnbondingTime_ params;
     MaxValidators := MaxValidators params;
     MaxEntries := MaxEntries params;
     HistoricalEntries := HistoricalEntries params;
     BondDenom := denom;
     MinCommissionRate := MinCommissionRate params |}.

(** The fields of the staking genesis state that [NewGenesisState] sets;
    the others keep their zero values. *)
Record GenesisState := mkGenesisState {
  Params_ : Params;
  Validators : list Validator;
  Delegations : list Delegation }.

Definition NewGenesisState (params : Params) (validators : list Validator)
           (delegations : list Delegation) : GenesisState :=
  mkGenesisState params validators delegations.
End stakingtypes.

(** ** x/epochs/types *)

Module epochstypes.
(** Modelled from the spec: the epochs package of the repository is not
    among the sources; its identifier of the day-long epoch is the "day"
    epoch identifier of the default inflation section. *)
Definition DayEpochID : string := "day".
End epochstypes.

(** * What the SDK leaves abstract *)

(** The types of the SDK and of the other packages of the repository that the
    helpers only pass around. *)
Class AbstractTypes := {
  (** the state of the random source that key generation draws from *)
  Entropy : Type;
  (** [cryptotypes.PubKey], the SDK's own public-key messages *)
  SdkPubKey : Type;
  (** parameters and genesis states of the auth and bank modules *)
  AuthParams : Type;
  AuthGenesis : Type;
  BankParams : Type;
  BankGenesis : Type;
  BankMetadata : Type;
  BankSendEnabled : Type;
  (** the inflation settings other than the enabling flag *)
  InflationSettings : Type;
  (** [evmtypes.GenesisState] *)
  EvmGenesis : Type;
  (** what the application constructor consumes *)
  MemDB : Type;
  Logger : Type;
  EncodingConfig : Type;
  BasicManager : Type;
  AppOptions : Type;
  BaseAppOption : Type }.

(** [json.RawMessage] *)
Definition RawMessage := list Byte.byte.

(** [sdktypes.AccAddress] *)
Definition AccAddress := list Byte.byte.

(** Modelled from the spec: [types.GenesisState] is declared elsewhere in the
    repository; it is the mapping from module name to the module's serialized
    section. *)
Abbreviation GenesisState := (gmap string RawMessage).

(** ** The store of genesis maps *)

Definition loc := positive.
Inductive mapref := nilmap | mapat (l : loc).
Abbreviation heap := (gmap loc GenesisState).

(** A computation over the store; [None] is a panic. *)
Definition M (A : Type) : Type := heap -> option (A * heap).

Definition ret {A} (a : A) : M A := fun h => Some (a, h).
Definition bind {A B} (m : M A) (f : A -> M B) : M B :=
  fun h => match m h with
           | Some (a, h') => f a h'
           | None => None
           end.

(** [m[key] = value]; assigning into a nil map panics. *)
Definition mapassign (m : mapref) (key : string) (value : RawMessage) : M unit :=
  fun h => match m with
           | nilmap => None
           | mapat l =>
               match h !! l with
               | Some g => Some (tt, <[l := <[key := value]> g]> h)
               | None => None
               end
           end.

Section Types.
Context `{AbstractTypes}.

(** ** x/inflation/v1/types *)

(** Modelled from the spec: the inflation package of the repository is not
    among the sources.  Its parameters carry the flag that enables inflation;
    its genesis state carries the parameters, the period, the epoch
    identifier, the epochs per period and the skipped epochs, which
    [NewGenesisState] takes in this order. *)
Record infltypes_Params := mkInflParams {
  EnableInflation : bool;
  inflationSettings : InflationSettings }.

Record infltypes_GenesisState := mkInflGenesisState {
  infl_Params : infltypes_Params;
  infl_Period : Z;
  infl_EpochIdentifier : string;
  infl_EpochsPerPeriod : Z;
  infl_SkippedEpochs : Z }.

Definition infltypes_NewGenesisState (params : infltypes_Params) (period : Z)
           (epochIdentifier : string) (epochsPerPeriod : Z) (skippedEpochs : Z)
  : infltypes_GenesisState :=
  mkInflGenesisState params period epochIdentifier epochsPerPeriod skippedEpochs.

(** [inflationParams.EnableInflation = b] *)
Definition setEnableInflation (params : infltypes_Params) (b : bool)
  : infltypes_Params :=
  {| EnableInflation := b; inflationSettings := inflationSettings params |}.

(** ** Messages, codec, application *)

(** The [proto.Message] values that the helpers hand to the codec. *)
Inductive Message :=
| StakingGenesisMsg (g : stakingtypes.GenesisState)
| AuthGenesisMsg (g : AuthGenesis)
| InflationGenesisMsg (g : infltypes_GenesisState)
| BankGenesisMsg (g : BankGenesis)
| EvmGenesisMsg (g : EvmGenesis).

Record Codec := mkCodec { MustMarshalJSON : Message -> RawMessage }.

(** Modelled from the spec: the application package of the repository is not
    among the sources; the application is the object whose codec performs
    genesis serialization. *)
Record Evmos := mkEvmos { AppCodec : Codec }.

(** ** Custom genesis overrides *)

(** A value of an empty-interface type: its dynamic type decides what the
    type assertions of the composers see. *)
Inductive any :=
| InflationGenesisPtr (g : infltypes_GenesisState)
| EvmGenesisPtr (g : EvmGenesis)
| OtherValue (T : string).

(** The [%T] rendering of a value. *)
Definition typeName (v : any) : string :=
  match v with
  | InflationGenesisPtr _ => "*types.GenesisState"
  | EvmGenesisPtr _ => "*types.GenesisState"
  | OtherValue T => T
  end.

(** [v.( *infltypes.GenesisState )] and [v.( *evmtypes.GenesisState )], in
    their two-result form. *)
Definition assertInflationGenesis (v : any) : option infltypes_GenesisState :=
  match v with InflationGenesisPtr g => Some g | _ => None end.
Definition assertEvmGenesis (v : any) : option EvmGenesis :=
  match v with EvmGenesisPtr g => Some g | _ => None end.

(** [fmt.Errorf("invalid type %T for <module> genesis state", custGen)] *)
Definition invalidTypeError (custGen : any) (module : string) : error :=
  "invalid type " +:+ typeName custGen +:+ " for " +:+ module +:+ " genesis state".

End Types.

(** Modelled from the spec: [CustomGenesisState] is declared elsewhere in the
    package; it is the mapping from module name to an arbitrary typed
    override value. *)
Abbreviation CustomGenesisState := (gmap string any).

(** The operations and constants of the SDK, and of the packages of the
    repository outside setup.go, that the helpers use as given. *)
Class Library `{AbstractTypes} := {
  mock_NewPV : Entropy -> cmttypes.PrivValidator * Entropy;
  cmttypes_NewValidatorSet : list cmttypes.Validator -> option cmttypes.ValidatorSet;
  AccAddress_String : AccAddress -> string;
  ValAddress_String : cmttypes.Address -> string;
  authtypes_NewModuleAddress : string -> AccAddress;
  cryptocodec_FromTmPubKeyInterface : cmttypes.PubKey -> result SdkPubKey;
  codectypes_NewAnyWithValue : SdkPubKey -> result codectypes.Any;
  authtypes_DefaultParams : AuthParams;
  authtypes_NewGenesisState : AuthParams -> list authtypes.GenesisAccount -> AuthGenesis;
  banktypes_DefaultParams : BankParams;
  banktypes_NewGenesisState :
    BankParams -> list banktypes.Balance -> sdktypes.Coins ->
    list BankMetadata -> list BankSendEnabled -> BankGenesis;
  stakingtypes_DefaultParams : stakingtypes.Params;
  infltypes_ModuleName : string;
  infltypes_DefaultParams : infltypes_Params;
  evmtypes_ModuleName : string;
  dbm_NewMemDB : MemDB;
  log_NewNopLogger : Logger;
  app_DefaultNodeHome : string;
  app_ModuleBasics : BasicManager;
  encoding_MakeConfig : BasicManager -> EncodingConfig;
  simutils_NewAppOptionsWithFlagHome : string -> AppOptions;
  baseapp_SetChainID : string -> BaseAppOption;
  app_NewEvmos :
    Logger -> MemDB -> option unit -> bool -> gmap Z bool -> string -> Z ->
    EncodingConfig -> AppOptions -> list BaseAppOption -> Evmos }.

(** * The helpers of setup.go *)

Section Setup.
Context `{Library}.

(** [authtypes.NewBaseAccount]; a nil public key is stored as such. *)
Definition authtypes_NewBaseAccount (address : AccAddress)
           (pubKey : option codectypes.Any) (accountNumber sequence : Z)
  : authtypes.BaseAccount :=
  authtypes.mkBaseAccount (AccAddress_String address) pubKey accountNumber sequence.

(** ** createValidatorSetAndSigners *)

(** The body of the loop, run for the [n] remaining values of [i]. *)
Fixpoint createValidatorSetAndSigners_loop (n : nat)
         (tmValidators : list cmttypes.Validator)
         (signers : gmap string cmttypes.PrivValidator) (r : Entropy)
  : list cmttypes.Validator * gmap string cmttypes.PrivValidator * Entropy :=
  match n with
  | O => (tmValidators, signers, r)
  | S n' =>
      let '(privVal, r) := mock_NewPV r in
      let '(pubKey, _) := cmttypes.GetPubKey privVal in
      let validator := cmttypes.NewValidator pubKey 1 in
      let tmValidators := tmValidators ++ [validator] in
      let signers :=
        <[cmttypes.Address_String (cmttypes.PubKey_Address pubKey) := privVal]> signers in
      createValidatorSetAndSigners_loop n' tmValidators signers r
  end.

(** [make] with a negative capacity panics; [i] runs from 0 up to
    [numberOfValidators]. *)
Definition createValidatorSetAndSigners (numberOfValidators : Z) (r : Entropy)
  : option (cmttypes.ValidatorSet * gmap string cmttypes.PrivValidator * Entropy) :=
  if numberOfValidators <? 0 then None
  else
    let '(tmValidators, signers, r) :=
      createValidatorSetAndSigners_loop (Z.to_nat numberOfValidators) [] ∅ r in
    vs ← cmttypes_NewValidatorSet tmValidators;
    Some (vs, signers, r).

(** ** createGenesisAccounts *)

Fixpoint createGenesisAccounts_range (accounts : list AccAddress)
         (genAccounts : list authtypes.GenesisAccount)
  : list authtypes.GenesisAccount :=
  match accounts with
  | [] => genAccounts
  | acc :: rest =>
      let baseAcc := authtypes_NewBaseAccount acc None 0 0 in
      createGenesisAccounts_range rest (genAccounts ++ [baseAcc])
  end.

Definition createGenesisAccounts (accounts : list AccAddress)
  : list authtypes.GenesisAccount :=
  createGenesisAccounts_range accounts [].

(** ** createBalances *)

Fixpoint createBalances_range (accounts : list AccAddress) (coin : sdktypes.Coin)
         (fundedAccountBalances : list banktypes.Balance)
  : option (list banktypes.Balance) :=
  match accounts with
  | [] => Some fundedAccountBalances
  | acc :: rest =>
      coins ← sdktypes.NewCoins [coin];
      let balance :=
        {| banktypes.Address := AccAddress_String acc;
           banktypes.Coins := coins |} in
      createBalances_range rest coin (fundedAccountBalances ++ [balance])
  end.

Definition createBalances (accounts : list AccAddress) (coin : sdktypes.Coin)
  : option (list banktypes.Balance) :=
  createBalances_range accounts coin [].

(** ** createEvmosApp *)

Definition createEvmosApp (chainID : string) : Evmos :=
  let db := dbm_NewMemDB in
  let logger := log_NewNopLogger in
  let loadLatest := true in
  let skipUpgradeHeights : gmap Z bool := ∅ in
  let homePath := app_DefaultNodeHome in
  let invCheckPeriod := 5 in
  let encodingConfig := encoding_MakeConfig app_ModuleBasics in
  let appOptions := simutils_NewAppOptionsWithFlagHome app_DefaultNodeHome in
  let baseAppOptions := [baseapp_SetChainID chainID] in
  app_NewEvmos logger db None loadLatest skipUpgradeHeights homePath
               invCheckPeriod encodingConfig appOptions baseAppOptions.

(** ** createStakingValidator *)

Definition createStakingValidator (val : cmttypes.Validator) (bondedAmt : sdkmath.Int)
  : result stakingtypes.Validator :=
  match cryptocodec_FromTmPubKeyInterface (cmttypes.PubKey_ val) with
  | Err err => Err err
  | Ok pk =>
      match codectypes_NewAnyWithValue pk with
      | Err err => Err err
      | Ok pkAny =>
          let commission :=
            stakingtypes.NewCommission sdkmath.LegacyZeroDec sdkmath.LegacyZeroDec
                                       sdkmath.LegacyZeroDec in
          let validator :=
            {| stakingtypes.OperatorAddress := ValAddress_String (cmttypes.Address_ val);
               stakingtypes.ConsensusPubkey := pkAny;
               stakingtypes.Jailed := false;
               stakingtypes.Status := stakingtypes.Bonded;
               stakingtypes.Tokens := bondedAmt;
               stakingtypes.DelegatorShares := sdkmath.LegacyOneDec;
               stakingtypes.Description_ := stakingtypes.Description_zero;
               stakingtypes.UnbondingHeight := 0;
               stakingtypes.UnbondingTime := time.toUTC (time.Unix 0 0);
               stakingtypes.Commission_ := commission;
               stakingtypes.MinSelfDelegation := sdkmath.ZeroInt;
               stakingtypes.UnbondingOnHoldRefCount := 0;
               stakingtypes.UnbondingIds := [] |} in
          Ok validator
      end
  end.

(** ** createStakingValidators *)

Fixpoint createStakingValidators_range (tmValidators : list cmttypes.Validator)
         (bondedAmt : sdkmath.Int) (stakingValidators : list stakingtypes.Validator)
  : result (list stakingtypes.Validator) :=
  match tmValidators with
  | [] => Ok stakingValidators
  | val :: rest =>
      match createStakingValidator val bondedAmt with
      | Err err => Err err
      | Ok validator =>
          createStakingValidators_range rest bondedAmt (stakingValidators ++ [validator])
      end
  end.

Definition createStakingValidators (tmValidators : list cmttypes.Validator)
           (bondedAmt : sdkmath.Int) : result (list stakingtypes.Validator) :=
  createStakingValidators_range tmValidators bondedAmt [].

(** ** createDelegations *)

Fixpoint createDelegations_range (tmValidators : list cmttypes.Validator)
         (fromAccount : AccAddress) (delegations : list stakingtypes.Delegation)
  : list stakingtypes.Delegation :=
  match tmValidators with
  | [] => delegations
  | val :: rest =>
      let delegation :=
        stakingtypes.NewDelegation (AccAddress_String fromAccount)
                                   (ValAddress_String (cmttypes.Address_ val))
                                   sdkmath.LegacyOneDec in
      createDelegations_range rest fromAccount (delegations ++ [delegation])
  end.

Definition createDelegations (tmValidators : list cmttypes.Validator)
           (fromAccount : AccAddress) : list stakingtypes.Delegation :=
  createDelegations_range tmValidators fromAccount [].

(** ** StakingCustomGenesisState and setStakingGenesisState *)

Record StakingCustomGenesisState := mkStakingCustomGenesisState {
  denom : string;
  validators : list stakingtypes.Validator;
  delegations : list stakingtypes.Delegation }.

Definition setStakingGenesisState (evmosApp : Evmos) (genesisState : mapref)
           (overwriteParams : StakingCustomGenesisState) : M mapref :=
  let stakingParams := stakingtypes_DefaultParams in
  let stakingParams := stakingtypes.setBondDenom stakingParams (denom overwriteParams) in
  let stakingGenesis :=
    stakingtypes.NewGenesisState stakingParams (validators overwriteParams)
                                 (delegations overwriteParams) in
  bind (mapassign genesisState stakingtypes.ModuleName
                  (MustMarshalJSON (AppCodec evmosApp) (StakingGenesisMsg stakingGenesis)))
       (fun _ => ret genesisState).

(** ** setAuthGenesisState *)

Definition setAuthGenesisState (evmosApp : Evmos) (genesisState : mapref)
           (genAccounts : list authtypes.GenesisAccount) : M mapref :=
  let authGenesis := authtypes_NewGenesisState authtypes_DefaultParams genAccounts in
  bind (mapassign genesisState authtypes.ModuleName
                  (MustMarshalJSON (AppCodec evmosApp) (AuthGenesisMsg authGenesis)))
       (fun _ => ret genesisState).

(** ** setInflationGenesisState *)

Definition setInflationGenesisState (evmosApp : Evmos) (genesisState : mapref)
           (customGenesis : CustomGenesisState) : M (mapref * option error) :=
  let chosen : result infltypes_GenesisState :=
    match customGenesis !! infltypes_ModuleName with
    | None =>
        let inflationParams := infltypes_DefaultParams in
        let inflationParams := setEnableInflation inflationParams false in
        let defaultGen :=
          infltypes_NewGenesisState inflationParams 0 epochstypes.DayEpochID 365 0 in
        Ok defaultGen
    | Some custGen =>
        match assertInflationGenesis custGen with
        | Some inflGenesis => Ok inflGenesis
        | None => Err (invalidTypeError custGen "inflation")
        end
    end in
  match chosen with
  | Err err => ret (nilmap, Some err)
  | Ok inflGenesis =>
      bind (mapassign genesisState infltypes_ModuleName
                      (MustMarshalJSON (AppCodec evmosApp) (InflationGenesisMsg inflGenesis)))
           (fun _ => ret (genesisState, None))
  end.

(** ** BankCustomGenesisState and setBankGenesisState *)

Record BankCustomGenesisState := mkBankCustomGenesisState {
  totalSupply : sdktypes.Coins;
  balances : list banktypes.Balance }.

Definition setBankGenesisState (evmosApp : Evmos) (genesisState : mapref)
           (overwriteParams : BankCustomGenesisState) : M mapref :=
  let bankGenesis :=
    banktypes_NewGenesisState banktypes_DefaultParams (balances overwriteParams)
                              (totalSupply overwriteParams) [] [] in
  bind (mapassign genesisState banktypes.ModuleName
                  (MustMarshalJSON (AppCodec evmosApp) (BankGenesisMsg bankGenesis)))
       (fun _ => ret genesisState).

(** ** setEVMGenesisState *)

Definition setEVMGenesisState (evmosApp : Evmos) (genesisState : mapref)
           (customGenesis : CustomGenesisState) : M (mapref * option error) :=
  match customGenesis !! evmtypes_ModuleName with
  | None => ret (genesisState, None)
  | Some custGen =>
      match assertEvmGenesis custGen with
      | None => ret (nilmap, Some (invalidTypeError custGen "evm"))
      | Some evmGenesis =>
          bind (mapassign genesisState evmtypes_ModuleName
                          (MustMarshalJSON (AppCodec evmosApp) (EvmGenesisMsg evmGenesis)))
               (fun _ => ret (genesisState, None))
      end
  end.

(** ** calculateTotalSupply *)

Fixpoint calculateTotalSupply_range (totalSupply : sdktypes.Coins)
         (fundedAccountsBalances : list banktypes.Balance) : option sdktypes.Coins :=
  match fundedAccountsBalances with
  | [] => Some totalSupply
  | balance :: rest =>
      totalSupply ← sdktypes.Coins_Add totalSupply (banktypes.Coins balance);
      calculateTotalSupply_range totalSupply rest
  end.

Definition calculateTotalSupply (fundedAccountsBalances : list banktypes.Balance)
  : option sdktypes.Coins :=
  totalSupply ← sdktypes.NewCoins [];
  calculateTotalSupply_range totalSupply fundedAccountsBalances.

(** ** addBondedModuleAccountToFundedBalances *)

Definition addBondedModuleAccountToFundedBalances
           (fundedAccountsBalances : list banktypes.Balance)
           (totalBonded : sdktypes.Coin) : list banktypes.Balance :=
  fundedAccountsBalances ++
    [ {| banktypes.Address :=
           AccAddress_String (authtypes_NewModuleAddress stakingtypes.BondedPoolName);
         banktypes.Coins := [totalBonded] |} ].

End Setup.

(** * Notions used to state the properties *)

#[global] Instance byte_eq_dec : EqDecision Byte.byte := Stdlib.Strings.Byte.byte_eq_dec.

(** Strict order of denominations, on coins. *)
Definition denomLt (c1 c2 : sdktypes.Coin) : Prop :=
  String.ltb (sdktypes.Denom c1) (sdktypes.Denom c2) = true.

(** The shape of every result of [Coins.Add]: strictly ascending
    denominations and no zero amount. *)
Definition canonical (coins : sdktypes.Coins) : Prop :=
  StronglySorted denomLt coins /\ Forall (fun c => sdktypes.Amount c <> 0) coins.

Definition nonNegative (coins : sdktypes.Coins) : Prop :=
  Forall (fun c => 0 <= sdktypes.Amount c) coins.

(** A balance as the bank module accepts it from a caller: coins sorted by
    denomination, no negative amount. *)
Definition validBalance (b : banktypes.Balance) : Prop :=
  sdktypes.isSorted (banktypes.Coins b) = true /\ nonNegative (banktypes.Coins b).

(** The amount of one denomination held by a list of balances together. *)
Definition supplyOf (denom : string) (bs : list banktypes.Balance) : Z :=
  foldr (fun b acc => sdktypes.amountOf denom (banktypes.Coins b) + acc) 0 bs.

(** The amount a single coin contributes to a denomination. *)
Definition coinAmountOf (denom : string) (c : sdktypes.Coin) : Z :=
  if decide (sdktypes.Denom c = denom) then sdktypes.Amount c else 0.

(** The fold of [comboCoin] from an arbitrary starting amount. *)
Definition comboFrom (denom : string) (a : Z) (cL : sdktypes.Coins)
  : option sdktypes.Coin :=
  foldl (fun combo c => combo ≫= fun combo => sdktypes.Coin_Add combo c)
        (Some (sdktypes.mkCoin denom a)) cL.

(** One coin per denomination of [all], holding the amount of that
    denomination, with the zero amounts removed. *)
Definition coalesce (all : sdktypes.Coins) : sdktypes.Coins :=
  filter (fun c => sdktypes.Coin_IsZero c = false)
         (map (fun d => sdktypes.mkCoin d (sdktypes.amountOf d all))
              (sdktypes.denomsOf all)).

(** An outcome that hands an error back to the caller. *)
Definition returnsError {A : Type} (o : option ((A * option error) * heap)) (e : error)
  : Prop :=
  exists a h', o = Some ((a, Some e), h').

(** The store [h'] is [h] with the entry [key] of the map at [l] written and
    nothing else changed: the other entries of that map and the other maps
    are as before. *)
Definition writesOnly (key : string) (l : loc) (h h' : heap) : Prop :=
  exists m m',
    h !! l = Some m /\ h' !! l = Some m' /\
    is_Some (m' !! key) /\
    (forall k, k <> key -> m' !! k = m !! k) /\
    (forall l', l' <> l -> h' !! l' = h !! l').

(** A genesis map that can be assigned into: a non-nil reference to a map of
    the store. *)
Definition liveMap (genesisState : mapref) (h : heap) : Prop :=
  exists l, genesisState = mapat l /\ is_Some (h !! l).

Section Notions.
Context `{Library}.

(** The signers that [n] successive calls of [mock.NewPV] produce. *)
Fixpoint drawn (n : nat) (r : Entropy) : list cmttypes.PrivValidator :=
  match n with
  | O => []
  | S n' => let '(privVal, r') := mock_NewPV r in privVal :: drawn n' r'
  end.

Definition pubKeyOf (privVal : cmttypes.PrivValidator) : cmttypes.PubKey :=
  fst (cmttypes.GetPubKey privVal).

(** The key under which a signer is filed. *)
Definition signerKey (privVal : cmttypes.PrivValidator) : string :=
  cmttypes.Address_String (cmttypes.PubKey_Address (pubKeyOf privVal)).

(** The signer map after filing the signers of [l] into [m], in order. *)
Definition fileSigners (m : gmap string cmttypes.PrivValidator)
           (l : list cmttypes.PrivValidator) : gmap string cmttypes.PrivValidator :=
  foldl (fun m privVal => <[signerKey privVal := privVal]> m) m l.

(** The validator made for a signer. *)
Definition validatorOf (privVal : cmttypes.PrivValidator) : cmttypes.Validator :=
  cmttypes.NewValidator (pubKeyOf privVal) 1.

(** The error results that the loop of [createValidatorSetAndSigners] binds
    to the blank identifier. *)
Definition droppedErrors (n : nat) (r : Entropy) : list (option error) :=
  map (fun privVal => snd (cmttypes.GetPubKey privVal)) (drawn n r).

(** The mock signer reads its public key from the key pair it holds; the
    read has no failing case. *)
Definition mockSignerContract : Prop :=
  forall r, snd (cmttypes.GetPubKey (fst (mock_NewPV r))) = None.

(** The keys of the signers have non-empty and pairwise distinct addresses,
    as keys drawn at random have, an address being a 20-byte digest of its
    key. *)
Definition distinctKeys (l : list cmttypes.PrivValidator) : Prop :=
  NoDup (map signerKey l) /\
  Forall (fun privVal => cmttypes.PubKey_Address (pubKeyOf privVal) <> []) l.

(** [cmttypes.NewValidatorSet] on validators with non-empty, pairwise
    distinct addresses and positive powers whose total is at most
    [MaxTotalVotingPower]: the set holds one validator for each of them, with
    the same address, key and power. *)
Definition validatorSetContract : Prop :=
  forall vals,
    NoDup (map cmttypes.Address_ vals) ->
    Forall (fun v => cmttypes.Address_ v <> []) vals ->
    Forall (fun v => 0 < cmttypes.VotingPower v) vals ->
    cmttypes.totalVotingPower vals <= cmttypes.MaxTotalVotingPower ->
    exists vs, cmttypes_NewValidatorSet vals = Some vs /\
               map cmttypes.identity (cmttypes.Validators vs)
                 ≡ₚ map cmttypes.identity vals.

(** The two conversions of a consensus public key that
    [createStakingValidator] performs: into the SDK's key type, then into the
    [Any] envelope. *)
Definition pubKeyConversion (val : cmttypes.Validator) : result codectypes.Any :=
  match cryptocodec_FromTmPubKeyInterface (cmttypes.PubKey_ val) with
  | Err err => Err err
  | Ok pk => codectypes_NewAnyWithValue pk
  end.

End Notions.

(** * A small instance of the SDK, for running the helpers *)

Module Sample.

#[local] Instance types : AbstractTypes := {|
  Entropy := nat;
  SdkPubKey := cmttypes.PubKey;
  AuthParams := unit;
  AuthGenesis := list authtypes.GenesisAccount;
  BankParams := unit;
  BankGenesis := list banktypes.Balance * sdktypes.Coins;
  BankMetadata := unit;
  BankSendEnabled := unit;
  InflationSettings := string;
  EvmGenesis := Z;
  MemDB := unit;
  Logger := unit;
  EncodingConfig := unit;
  BasicManager := unit;
  AppOptions := string;
  BaseAppOption := string |}.

(** The [n]-th key of the generator. *)
Definition key (n : nat) : cmttypes.PubKey :=
  cmttypes.mkPubKey (repeat Byte.x2a (S n)) (repeat Byte.x07 32) "ed25519".

Definition signer (n : nat) : cmttypes.PrivValidator :=
  cmttypes.mkPrivValidator (key n, None).

Definition newValidatorSet (vals : list cmttypes.Validator)
  : option cmttypes.ValidatorSet :=
  if decide (NoDup (map cmttypes.Address_ vals))
  then if forallb (fun v => negb (bool_decide (cmttypes.Address_ v = []))) vals
       then Some (cmttypes.mkValidatorSet vals (head vals))
       else None
  else None.

Definition fromTmPubKey (pk : cmttypes.PubKey) : result cmttypes.PubKey :=
  if String.eqb (cmttypes.PubKey_Type pk) "ed25519" then Ok pk
  else Err "unsupported key type".

Definition newAny (pk : cmttypes.PubKey) : result codectypes.Any :=
  Ok (codectypes.mkAny "/cosmos.crypto.ed25519.PubKey" (cmttypes.PubKey_Bytes pk)).

(** A codec that writes one tag byte per kind of message and, for an EVM
    section, one more byte when the section is non-zero. *)
Definition marshal (m : Message) : RawMessage :=
  match m with
  | StakingGenesisMsg g =>
      Byte.x01 :: map (fun _ => Byte.x2e) (stakingtypes.Validators g)
               ++ String.list_byte_of_string
                    (stakingtypes.BondDenom (stakingtypes.Params_ g))
  | AuthGenesisMsg _ => [Byte.x02]
  | InflationGenesisMsg g =>
      Byte.x03 :: (if EnableInflation (infl_Params g) then Byte.x01 else Byte.x00)
               :: String.list_byte_of_string (infl_EpochIdentifier g)
  | BankGenesisMsg _ => [Byte.x04]
  | EvmGenesisMsg g => if g =? 0 then [Byte.x05] else [Byte.x05; Byte.x01]
  end.

Definition evmos : Evmos := mkEvmos (mkCodec marshal).

Definition newPV (r : nat) : cmttypes.PrivValidator * nat := (signer r, S r).

Definition stakingParams : stakingtypes.Params :=
  stakingtypes.mkParams 1814400000000000 100 7 10000 "stake" sdkmath.LegacyZeroDec.

#[local] Instance library : @Library types :=
  @Build_Library types
    (* mock_NewPV *) newPV
    (* cmttypes_NewValidatorSet *) newValidatorSet
    (* AccAddress_String *) cmttypes.Address_String
    (* ValAddress_String *) cmttypes.Address_String
    (* authtypes_NewModuleAddress *) String.list_byte_of_string
    (* cryptocodec_FromTmPubKeyInterface *) fromTmPubKey
    (* codectypes_NewAnyWithValue *) newAny
    (* authtypes_DefaultParams *) tt
    (* authtypes_NewGenesisState *) (fun _ accounts => accounts)
    (* banktypes_DefaultParams *) tt
    (* banktypes_NewGenesisState *) (fun _ balances supply _ _ => (balances, supply))
    (* stakingtypes_DefaultParams *) stakingParams
    (* infltypes_ModuleName *) "inflation"
    (* infltypes_DefaultParams *) (mkInflParams true "aevmos")
    (* evmtypes_ModuleName *) "evm"
    (* dbm_NewMemDB *) tt
    (* log_NewNopLogger *) tt
    (* app_DefaultNodeHome *) "/tmp/evmosd"
    (* app_ModuleBasics *) tt
    (* encoding_MakeConfig *) (fun _ => tt)
    (* simutils_NewAppOptionsWithFlagHome *) (fun home => home)
    (* baseapp_SetChainID *) (fun chainID => chainID)
    (* app_NewEvmos *) (fun _ _ _ _ _ _ _ _ _ _ => evmos).

(** Sample balances. *)
Definition alice : banktypes.Balance :=
  banktypes.mkBalance "evmos1alice"
                      [sdktypes.mkCoin "aevmos" 5; sdktypes.mkCoin "stake" 2].
Definition bob : banktypes.Balance :=
  banktypes.mkBalance "evmos1bob" [sdktypes.mkCoin "aevmos" 7].
Definition unsortedBalance : banktypes.Balance :=
  banktypes.mkBalance "evmos1carol"
                      [sdktypes.mkCoin "stake" 2; sdktypes.mkCoin "aevmos" 5].
Definition hugeBalance : banktypes.Balance :=
  banktypes.mkBalance "evmos1dave" [sdktypes.mkCoin "aevmos" (2 ^ 255)].

(** Sample validators: one with a key type the SDK converts, one without. *)
Definition goodValidator : cmttypes.Validator := cmttypes.NewValidator (key 0) 1.
Definition badValidator : cmttypes.Validator :=
  cmttypes.NewValidator (cmttypes.mkPubKey [Byte.x01] [Byte.x02] "sr25519") 1.

(** A store with one, empty, genesis map. *)
Definition genesisAt : loc := 1%positive.
Definition emptyStore : heap := {[ genesisAt := ∅ ]}.

(** Sample overrides: a typed inflation section next to an EVM value of
    another type, and the other way round. *)
Definition weeklyInflation : infltypes_GenesisState :=
  mkInflGenesisState (mkInflParams true "aevmos") 3 "week" 52 1.
Definition typedInflation : gmap string any :=
  <[ "inflation" := InflationGenesisPtr weeklyInflation ]>
    {[ "evm" := OtherValue "types.GenesisState" ]}.
Definition typedEvm : gmap string any :=
  <[ "evm" := EvmGenesisPtr 7 ]>
    {[ "inflation" := OtherValue "types.GenesisState" ]}.

(** Sample staking overrides. *)
Definition firstStaking : StakingCustomGenesisState :=
  mkStakingCustomGenesisState "stake" [] [].
(** A bonded staking record and the delegation to it. *)
Definition bondedRecord : stakingtypes.Validator :=
  {| stakingtypes.OperatorAddress := "2A";
     stakingtypes.ConsensusPubkey :=
       codectypes.mkAny "/cosmos.crypto.ed25519.PubKey" (repeat Byte.x07 32);
     stakingtypes.Jailed := false;
     stakingtypes.Status := stakingtypes.Bonded;
     stakingtypes.Tokens := 100;
     stakingtypes.DelegatorShares := sdkmath.LegacyOneDec;
     stakingtypes.Description_ := stakingtypes.Description_zero;
     stakingtypes.UnbondingHeight := 0;
     stakingtypes.UnbondingTime := time.toUTC (time.Unix 0 0);
     stakingtypes.Commission_ :=
       stakingtypes.NewCommission sdkmath.LegacyZeroDec sdkmath.LegacyZeroDec
                                  sdkmath.LegacyZeroDec;
     stakingtypes.MinSelfDelegation := 0;
     stakingtypes.UnbondingOnHoldRefCount := 0;
     stakingtypes.UnbondingIds := [] |}.
Definition selfDelegation : stakingtypes.Delegation :=
  stakingtypes.mkDelegation "01" "2A" sdkmath.LegacyOneDec.
Definition secondStaking : StakingCustomGenesisState :=
  mkStakingCustomGenesisState "aevmos" [bondedRecord] [selfDelegation].

End Sample.

(** * Properties of the coin arithmetic *)

Section DenomOrder.

Lemma compare_refl_Eq (s : string) : String.compare s s = Eq.
Proof.
  induction s as [|a s IH]; simpl; [done|].
  unfold Ascii.compare. by rewrite N.compare_refl.
Qed.

Lemma compare_Lt_leb (s1 s2 : string) :
  String.compare s1 s2 = Lt -> String.leb s1 s2 = true.
Proof. unfold String.leb. by intros ->. Qed.

Lemma compare_Lt_ne (s1 s2 : string) : String.compare s1 s2 = Lt -> s1 <> s2.
Proof. intros Hlt ->. rewrite compare_refl_Eq in Hlt. discriminate. Qed.

Lemma leb_trans (s1 s2 s3 : string) :
  String.leb s1 s2 = true -> String.leb s2 s3 = true -> String.leb s1 s3 = true.
Proof.
  intros H12 H23.
  assert (String.le s1 s3) as Hle.
  { transitivity s2; unfold String.le; [by rewrite H12 | by rewrite H23]. }
  unfold String.le in Hle. by destruct (String.leb s1 s3).
Qed.

Lemma leb_ne_Lt (s1 s2 : string) :
  String.leb s1 s2 = true -> s1 <> s2 -> String.compare s1 s2 = Lt.
Proof.
  unfold String.leb. intros Hle Hne.
  destruct (String.compare s1 s2) eqn:Hc; [|done|done].
  by apply String.compare_eq_iff in Hc.
Qed.

Lemma compare_Lt_trans (s1 s2 s3 : string) :
  String.compare s1 s2 = Lt -> String.compare s2 s3 = Lt -> String.compare s1 s3 = Lt.
Proof.
  intros H12 H23. apply leb_ne_Lt.
  - eapply leb_trans; by apply compare_Lt_leb.
  - intros ->.
    assert (s3 = s2) as ->.
    { apply String.leb_antisym; by apply compare_Lt_leb. }
    rewrite compare_refl_Eq in H12. discriminate.
Qed.

Lemma compare_Gt_Lt (s1 s2 : string) :
  String.compare s1 s2 = Gt -> String.compare s2 s1 = Lt.
Proof.
  intros Hc. rewrite String.compare_antisym, Hc. done.
Qed.

Lemma ltb_Lt (s1 s2 : string) : String.ltb s1 s2 = true <-> String.compare s1 s2 = Lt.
Proof. unfold String.ltb. by destruct (String.compare s1 s2). Qed.

Lemma ltb_irrefl (s : string) : String.ltb s s = false.
Proof. unfold String.ltb. by rewrite compare_refl_Eq. Qed.

Lemma ltb_trans (s1 s2 s3 : string) :
  String.ltb s1 s2 = true -> String.ltb s2 s3 = true -> String.ltb s1 s3 = true.
Proof. rewrite !ltb_Lt. apply compare_Lt_trans. Qed.

Lemma ltb_leb (s1 s2 : string) : String.ltb s1 s2 = true -> String.leb s1 s2 = true.
Proof. rewrite ltb_Lt. apply compare_Lt_leb. Qed.

Lemma ltb_asym (s1 s2 : string) :
  String.ltb s1 s2 = true -> String.ltb s2 s1 = true -> False.
Proof.
  intros H12 H21. pose proof (ltb_trans _ _ _ H12 H21) as Hc.
  rewrite ltb_irrefl in Hc. discriminate.
Qed.

Lemma ltb_trichotomy (s1 s2 : string) :
  String.ltb s1 s2 = true \/ s1 = s2 \/ String.ltb s2 s1 = true.
Proof.
  destruct (String.compare s1 s2) eqn:Hc.
  - right; left. by apply String.compare_eq_iff.
  - left. by apply ltb_Lt.
  - right; right. by apply ltb_Lt, compare_Gt_Lt.
Qed.

End DenomOrder.

Section AmountOf.
Import sdktypes sdkmath.

Lemma amountOf_cons (d : string) (c : Coin) (l : Coins) :
  amountOf d (c :: l) = coinAmountOf d c + amountOf d l.
Proof. unfold coinAmountOf. simpl. case_decide; lia. Qed.

Lemma amountOf_app (d : string) (l1 l2 : Coins) :
  amountOf d (l1 ++ l2) = amountOf d l1 + amountOf d l2.
Proof.
  induction l1 as [|c l1 IH]; [done|].
  rewrite <- app_comm_cons, !amountOf_cons, IH. lia.
Qed.

Lemma amountOf_absent (d : string) (l : Coins) :
  Forall (fun c => Denom c <> d) l -> amountOf d l = 0.
Proof.
  induction 1 as [|c l Hc _ IH]; [done|].
  rewrite amountOf_cons, IH. unfold coinAmountOf. case_decide; [done|lia].
Qed.

Lemma amountOf_filter_denom (d : string) (l : Coins) :
  amountOf d (filter (fun c => Denom c = d) l) = amountOf d l.
Proof.
  induction l as [|c l IH]; [done|].
  rewrite filter_cons. case_decide as Hd.
  - rewrite !amountOf_cons, IH. done.
  - rewrite amountOf_cons, IH. unfold coinAmountOf. case_decide; [done|lia].
Qed.

Lemma amountOf_nonneg (d : string) (l : Coins) :
  nonNegative l -> 0 <= amountOf d l.
Proof.
  induction 1 as [|c l Hc _ IH]; [done|].
  rewrite amountOf_cons. unfold coinAmountOf. case_decide; lia.
Qed.

Lemma nonNegative_filter (P : Coin -> Prop) `{!forall c, Decision (P c)} (l : Coins) :
  nonNegative l -> nonNegative (filter P l).
Proof.
  unfold nonNegative. rewrite !Forall_forall.
  intros Hl c [_ Hc]%list_elem_of_filter. by apply Hl.
Qed.

Lemma comboFrom_None (cL : Coins) :
  foldl (fun combo c => combo ≫= fun combo => Coin_Add combo c) None cL = None.
Proof. induction cL as [|c cL IH]; [done|]. simpl. apply IH. Qed.

Lemma comboFrom_cons (denom : string) (a : Z) (c : Coin) (cL : Coins) :
  Denom c = denom ->
  comboFrom denom a (c :: cL)
  = if fitsBitLen (a + Amount c) then comboFrom denom (a + Amount c) cL else None.
Proof.
  intros Hd. unfold comboFrom. simpl. unfold Coin_Add, Int_Add. simpl.
  rewrite Hd, String.eqb_refl.
  destruct (fitsBitLen (a + Amount c)); simpl; [done|apply comboFrom_None].
Qed.

Lemma comboFrom_Some (denom : string) (cL : Coins) (a : Z) (c : Coin) :
  Forall (fun c => Denom c = denom) cL ->
  comboFrom denom a cL = Some c -> c = mkCoin denom (a + amountOf denom cL).
Proof.
  intros Hall. revert a. induction Hall as [|c' cL Hc' _ IH]; intros a.
  - unfold comboFrom. simpl. intros [= <-]. f_equal. lia.
  - rewrite comboFrom_cons by done.
    destruct (fitsBitLen (a + Amount c')); [|done].
    intros ->%IH. f_equal. rewrite amountOf_cons. unfold coinAmountOf.
    rewrite decide_True by done. lia.
Qed.

Lemma fitsBitLen_nonneg (x : Z) : 0 <= x -> x < 2 ^ 256 -> fitsBitLen x = true.
Proof.
  intros H0 Hlt. unfold fitsBitLen, MaxBitLen. apply Z.ltb_lt.
  rewrite Z.abs_eq; done.
Qed.

Lemma comboFrom_total (denom : string) (cL : Coins) (a : Z) :
  Forall (fun c => Denom c = denom) cL ->
  nonNegative cL -> 0 <= a -> a + amountOf denom cL < 2 ^ 256 ->
  comboFrom denom a cL = Some (mkCoin denom (a + amountOf denom cL)).
Proof.
  intros Hall. revert a. induction Hall as [|c' cL Hc' _ IH]; intros a Hnn Ha Hlt.
  - unfold comboFrom. simpl. do 2 f_equal. lia.
  - apply Forall_cons in Hnn as [Hc0 Hnn].
    rewrite amountOf_cons in Hlt |- *. unfold coinAmountOf in *.
    rewrite decide_True in Hlt |- * by done.
    pose proof (amountOf_nonneg denom cL Hnn).
    rewrite comboFrom_cons by done.
    rewrite fitsBitLen_nonneg by lia.
    rewrite IH by (done || lia). do 2 f_equal. lia.
Qed.

(** ** The keys visited by [Coins.Add] *)

Lemma insertDenom_elem (d x : string) (ds : list string) :
  x ∈ insertDenom d ds <-> x = d \/ x ∈ ds.
Proof.
  induction ds as [|d' ds IH]; simpl.
  - rewrite list_elem_of_singleton. split; [by left|].
    intros [?|?%elem_of_nil]; done.
  - destruct (String.compare d d') eqn:Hc.
    + apply String.compare_eq_iff in Hc as ->. rewrite elem_of_cons. tauto.
    + rewrite elem_of_cons. tauto.
    + rewrite !elem_of_cons, IH. tauto.
Qed.

Lemma insertDenom_sorted (d : string) (ds : list string) :
  StronglySorted (fun s1 s2 => String.ltb s1 s2 = true) ds ->
  StronglySorted (fun s1 s2 => String.ltb s1 s2 = true) (insertDenom d ds).
Proof.
  induction 1 as [|d' ds Hs IH Hd']; simpl.
  - repeat constructor.
  - destruct (String.compare d d') eqn:Hc.
    + by constructor.
    + constructor; [by constructor|].
      constructor; [by apply ltb_Lt|].
      eapply Forall_impl; [exact Hd'|]. simpl. intros x Hx.
      eapply ltb_trans; [by apply ltb_Lt|done].
    + constructor; [done|].
      rewrite Forall_forall. intros x [->|Hx]%insertDenom_elem.
      * by apply ltb_Lt, compare_Gt_Lt.
      * rewrite Forall_forall in Hd'. by apply Hd'.
Qed.

Lemma denomsOf_elem (d : string) (l : Coins) :
  d ∈ denomsOf l <-> exists c, c ∈ l /\ Denom c = d.
Proof.
  unfold denomsOf. induction l as [|c l IH]; simpl.
  - split; [by intros ?%elem_of_nil|]. intros (c & ?%elem_of_nil & _). done.
  - rewrite insertDenom_elem, IH. split.
    + intros [->|(c' & Hc' & <-)]; [exists c|exists c']; (split; [|done]);
        apply elem_of_cons; [by left|by right].
    + intros (c' & [->|Hc']%elem_of_cons & <-); [by left|right; by exists c'].
Qed.

Lemma denomsOf_sorted (l : Coins) :
  StronglySorted (fun s1 s2 => String.ltb s1 s2 = true) (denomsOf l).
Proof.
  unfold denomsOf. induction l as [|c l IH]; simpl; [constructor|].
  by apply insertDenom_sorted.
Qed.

Lemma sorted_head_absent (d : string) (ds : list string) :
  StronglySorted (fun s1 s2 => String.ltb s1 s2 = true) (d :: ds) -> d ∉ ds.
Proof.
  intros [Hd _]%StronglySorted_cons Hin.
  rewrite Forall_forall in Hd. specialize (Hd d Hin).
  rewrite ltb_irrefl in Hd. discriminate.
Qed.

(** ** The result of [Coins.Add] *)

Lemma Coin_IsZero_false (c : Coin) : Coin_IsZero c = false <-> Amount c <> 0.
Proof. unfold Coin_IsZero, Int_IsZero. apply Z.eqb_neq. Qed.

Lemma amountOf_coalesce_keys (d : string) (amt : string -> Z) (ds : list string) :
  StronglySorted (fun s1 s2 => String.ltb s1 s2 = true) ds ->
  amountOf d (filter (fun c => Coin_IsZero c = false) (map (fun d => mkCoin d (amt d)) ds))
  = if decide (d ∈ ds) then amt d else 0.
Proof.
  induction ds as [|d' ds IH]; intros Hs; [done|].
  pose proof (sorted_head_absent _ _ Hs) as Hnotin.
  apply StronglySorted_cons in Hs as [_ Hs]. specialize (IH Hs).
  assert ((if decide (d ∈ d' :: ds) then amt d else 0)
          = coinAmountOf d (mkCoin d' (amt d')) + (if decide (d ∈ ds) then amt d else 0))
    as ->.
  { unfold coinAmountOf. simpl. destruct (decide (d' = d)) as [->|Hne]; simpl.
    - rewrite (decide_True (P := d ∈ d :: ds)) by (apply elem_of_cons; by left).
      rewrite (decide_False (P := d ∈ ds)) by done. lia.
    - destruct (decide (d ∈ ds)) as [Hin|Hin]; simpl.
      + rewrite decide_True by (apply elem_of_cons; by right). lia.
      + rewrite decide_False; [lia|].
        intros [?|?]%elem_of_cons; [congruence|done]. }
  rewrite <- IH. simpl map. rewrite filter_cons.
  destruct (decide (Coin_IsZero (mkCoin d' (amt d')) = false)) as [Hz|Hz].
  - by rewrite amountOf_cons.
  - assert (amt d' = 0) as Hamt.
    { apply dec_stable. intros Hne. apply Hz. by apply Coin_IsZero_false. }
    unfold coinAmountOf. simpl. rewrite Hamt. destruct (decide (d' = d)); lia.
Qed.

Lemma amountOf_coalesce (d : string) (all : Coins) :
  amountOf d (coalesce all) = amountOf d all.
Proof.
  unfold coalesce. rewrite amountOf_coalesce_keys by apply denomsOf_sorted.
  case_decide as Hin; [done|].
  symmetry. apply amountOf_absent. rewrite Forall_forall. intros c Hc Hd.
  apply Hin, denomsOf_elem. by exists c.
Qed.

Lemma denomLt_keys (amt : string -> Z) (ds : list string) :
  StronglySorted (fun s1 s2 => String.ltb s1 s2 = true) ds ->
  StronglySorted denomLt (map (fun d => mkCoin d (amt d)) ds).
Proof.
  induction 1 as [|d ds _ IH Hd]; simpl; constructor; [done|].
  rewrite Forall_forall. intros c (d' & <- & Hd')%list_elem_of_In%in_map_iff.
  rewrite Forall_forall in Hd. apply Hd. by apply list_elem_of_In.
Qed.

Lemma StronglySorted_filter {A} (R : relation A) (P : A -> Prop)
      `{!forall x, Decision (P x)} (l : list A) :
  StronglySorted R l -> StronglySorted R (filter P l).
Proof.
  induction 1 as [|x l _ IH Hx]; [constructor|].
  rewrite filter_cons. case_decide; [|done].
  constructor; [done|].
  rewrite Forall_forall in Hx |- *. intros y [_ Hy]%list_elem_of_filter. by apply Hx.
Qed.

Lemma canonical_coalesce (all : Coins) : canonical (coalesce all).
Proof.
  split.
  - apply StronglySorted_filter, denomLt_keys, denomsOf_sorted.
  - rewrite Forall_forall. intros c [Hc _]%list_elem_of_filter.
    by apply Coin_IsZero_false.
Qed.

Lemma nonNegative_coalesce (all : Coins) : nonNegative all -> nonNegative (coalesce all).
Proof.
  intros Hnn. apply nonNegative_filter. unfold nonNegative.
  rewrite Forall_forall. intros c (d & <- & _)%list_elem_of_In%in_map_iff. simpl.
  by apply amountOf_nonneg.
Qed.

Lemma canonical_isSorted (l : Coins) : canonical l -> isSorted l = true.
Proof.
  intros [Hs _]. induction Hs as [|c l Hs IH Hc]; [done|].
  simpl. destruct l as [|c' l]; [done|].
  apply andb_true_iff. split; [|done].
  apply Forall_cons in Hc as [Hc _]. by apply ltb_leb.
Qed.

(** Two canonical coin lists that hold the same amount of every
    denomination are the same list. *)
Lemma canonical_ext (l1 l2 : Coins) :
  canonical l1 -> canonical l2 ->
  (forall d, amountOf d l1 = amountOf d l2) -> l1 = l2.
Proof.
  assert (forall c l, StronglySorted denomLt (c :: l) ->
                      amountOf (Denom c) (c :: l) = Amount c) as Hhead.
  { intros c l [Hc _]%StronglySorted_cons.
    rewrite amountOf_cons, amountOf_absent.
    - unfold coinAmountOf. rewrite decide_True by done. lia.
    - eapply Forall_impl; [exact Hc|]. simpl. intros c' Hlt Heq.
      unfold denomLt in Hlt. rewrite Heq, ltb_irrefl in Hlt. discriminate. }
  assert (forall d c l, StronglySorted denomLt (c :: l) ->
                        String.ltb d (Denom c) = true ->
                        amountOf d (c :: l) = 0) as Hbelow.
  { intros d c l Hs Hlt. apply amountOf_absent.
    apply StronglySorted_cons in Hs as [Hc _]. constructor.
    - intros Heq. rewrite Heq, ltb_irrefl in Hlt. discriminate.
    - eapply Forall_impl; [exact Hc|]. simpl. intros c' Hlt' Heq.
      unfold denomLt in Hlt'. rewrite Heq in Hlt'. by eapply ltb_asym. }
  revert l2. induction l1 as [|c1 l1 IH]; intros l2 [Hs1 Hz1] [Hs2 Hz2] Hext.
  - destruct l2 as [|c2 l2]; [done|].
    specialize (Hext (Denom c2)). rewrite Hhead in Hext by done.
    apply Forall_cons in Hz2 as [Hz2 _]. simpl in Hext. congruence.
  - destruct l2 as [|c2 l2].
    { specialize (Hext (Denom c1)). rewrite Hhead in Hext by done.
      apply Forall_cons in Hz1 as [Hz1 _]. simpl in Hext. congruence. }
    pose proof Hz1 as [Hz1h Hz1t]%Forall_cons.
    pose proof Hz2 as [Hz2h Hz2t]%Forall_cons.
    destruct (ltb_trichotomy (Denom c1) (Denom c2)) as [Hlt|[Heq|Hlt]].
    + specialize (Hext (Denom c1)).
      rewrite Hhead, (Hbelow _ c2) in Hext by done. done.
    + assert (Amount c1 = Amount c2) as Hamt.
      { pose proof (Hext (Denom c1)) as He. rewrite Hhead in He by done.
        rewrite Heq, Hhead in He by done. done. }
      assert (c1 = c2) as -> by (destruct c1, c2; simpl in *; congruence).
      f_equal. apply IH.
      * split; [by apply StronglySorted_cons in Hs1 as [_ ?]|done].
      * split; [by apply StronglySorted_cons in Hs2 as [_ ?]|done].
      * intros d. specialize (Hext d). rewrite !amountOf_cons in Hext. lia.
    + specialize (Hext (Denom c2)).
      rewrite (Hbelow _ c1), Hhead in Hext by done. done.
Qed.

Lemma Coins_Add_inv (a b r : Coins) :
  Coins_Add a b = Some r ->
  isSorted a = true /\ isSorted b = true /\ r = coalesce (a ++ b).
Proof.
  unfold Coins_Add.
  destruct (isSorted a); [|done]. destruct (isSorted b); [|done]. simpl.
  destruct (mapM _ _) as [coalesced|] eqn:Hm; [|done]. simpl. intros [= <-].
  do 2 (split; [done|]). unfold coalesce. f_equal.
  apply mapM_Some in Hm. induction Hm as [|d c ds cs Hc _ IH]; [done|].
  simpl. f_equal; [|done].
  apply comboFrom_Some in Hc.
  - rewrite amountOf_filter_denom in Hc. by rewrite Hc.
  - rewrite Forall_forall. by intros c' [Hc' _]%list_elem_of_filter.
Qed.

Lemma Coins_Add_total (a b : Coins) :
  isSorted a = true -> isSorted b = true ->
  nonNegative a -> nonNegative b ->
  (forall d, amountOf d a + amountOf d b < 2 ^ 256) ->
  Coins_Add a b = Some (coalesce (a ++ b)).
Proof.
  intros Ha Hb Hna Hnb Hlt. unfold Coins_Add. rewrite Ha, Hb. simpl.
  assert (nonNegative (a ++ b)) as Hnn by (by apply Forall_app).
  erewrite (mapM_Some_2 _ _ (map (fun d => mkCoin d (amountOf d (a ++ b)))
                                 (denomsOf (a ++ b)))); [done|].
  induction (denomsOf (a ++ b)) as [|d ds IH]; simpl; constructor; [|done].
  unfold comboCoin. fold (comboFrom d ZeroInt (filter (fun c => Denom c = d) (a ++ b))).
  rewrite comboFrom_total.
  - by rewrite amountOf_filter_denom.
  - rewrite Forall_forall. by intros c' [Hc' _]%list_elem_of_filter.
  - by apply nonNegative_filter.
  - done.
  - rewrite amountOf_filter_denom, amountOf_app. specialize (Hlt d).
    unfold ZeroInt. lia.
Qed.

End AmountOf.

(** * Total supply *)

Section TotalSupply.
Import sdktypes.

Lemma supplyOf_cons (d : string) (b : banktypes.Balance) (bs : list banktypes.Balance) :
  supplyOf d (b :: bs) = amountOf d (banktypes.Coins b) + supplyOf d bs.
Proof. done. Qed.

Lemma supplyOf_app (d : string) (bs1 bs2 : list banktypes.Balance) :
  supplyOf d (bs1 ++ bs2) = supplyOf d bs1 + supplyOf d bs2.
Proof.
  induction bs1 as [|b bs1 IH]; [done|].
  rewrite <- app_comm_cons, !supplyOf_cons, IH. lia.
Qed.

Lemma supplyOf_nonneg (d : string) (bs : list banktypes.Balance) :
  Forall validBalance bs -> 0 <= supplyOf d bs.
Proof.
  induction 1 as [|b bs [_ Hb] _ IH]; [done|].
  rewrite supplyOf_cons. pose proof (amountOf_nonneg d _ Hb). lia.
Qed.

Lemma supplyOf_Permutation (d : string) (bs1 bs2 : list banktypes.Balance) :
  bs1 ≡ₚ bs2 -> supplyOf d bs1 = supplyOf d bs2.
Proof.
  induction 1 as [|b bs1 bs2 _ IH|b1 b2 bs|bs1 bs2 bs3 _ IH1 _ IH2];
    rewrite ?supplyOf_cons; [done|by rewrite IH|lia|congruence].
Qed.

Lemma NewCoins_nil : NewCoins [] = Some [].
Proof. reflexivity. Qed.

Lemma calculateTotalSupply_range_app (t : Coins) (bs1 bs2 : list banktypes.Balance) :
  calculateTotalSupply_range t (bs1 ++ bs2)
  = calculateTotalSupply_range t bs1 ≫= fun t' => calculateTotalSupply_range t' bs2.
Proof.
  revert t. induction bs1 as [|b bs1 IH]; intros t; [done|].
  simpl. destruct (Coins_Add t (banktypes.Coins b)) as [t'|]; simpl; [apply IH|done].
Qed.

Lemma calculateTotalSupply_range_amount (bs : list banktypes.Balance) (t total : Coins) :
  calculateTotalSupply_range t bs = Some total ->
  forall d, amountOf d total = amountOf d t + supplyOf d bs.
Proof.
  revert t. induction bs as [|b bs IH]; intros t; simpl.
  - intros [= <-] d. lia.
  - destruct (Coins_Add t (banktypes.Coins b)) as [t'|] eqn:Hadd; [|done]. simpl.
    intros Hrest d. rewrite (IH _ Hrest).
    apply Coins_Add_inv in Hadd as (_ & _ & ->).
    rewrite amountOf_coalesce, amountOf_app. lia.
Qed.

Lemma calculateTotalSupply_range_canonical (bs : list banktypes.Balance) (t total : Coins) :
  canonical t -> calculateTotalSupply_range t bs = Some total -> canonical total.
Proof.
  revert t. induction bs as [|b bs IH]; intros t Ht; simpl.
  - by intros [= <-].
  - destruct (Coins_Add t (banktypes.Coins b)) as [t'|] eqn:Hadd; [|done]. simpl.
    apply IH. apply Coins_Add_inv in Hadd as (_ & _ & ->). apply canonical_coalesce.
Qed.

Lemma calculateTotalSupply_range_total (bs : list banktypes.Balance) (t : Coins) :
  isSorted t = true -> nonNegative t ->
  Forall validBalance bs ->
  (forall d, amountOf d t + supplyOf d bs < 2 ^ 256) ->
  is_Some (calculateTotalSupply_range t bs).
Proof.
  intros Ht Hnt Hbs. revert t Ht Hnt.
  induction Hbs as [|b bs [Hb Hnb] Hbs IH]; intros t Ht Hnt Hlt; simpl; [done|].
  rewrite Coins_Add_total; [| done | done | done | done |].
  - simpl. apply IH.
    + apply canonical_isSorted, canonical_coalesce.
    + apply nonNegative_coalesce. by apply Forall_app.
    + intros d. rewrite amountOf_coalesce, amountOf_app.
      specialize (Hlt d). rewrite supplyOf_cons in Hlt. lia.
  - intros d. specialize (Hlt d). rewrite supplyOf_cons in Hlt.
    pose proof (supplyOf_nonneg d bs Hbs). lia.
Qed.

Lemma canonical_nil : canonical [].
Proof. split; constructor. Qed.

(** What a run of [calculateTotalSupply] on valid balances yields. *)
Lemma calculateTotalSupply_run (bs : list banktypes.Balance) :
  Forall validBalance bs -> (forall d, supplyOf d bs < 2 ^ 256) ->
  exists total, calculateTotalSupply bs = Some total /\
                canonical total /\
                forall d, amountOf d total = supplyOf d bs.
Proof.
  intros Hbs Hlt. unfold calculateTotalSupply. rewrite NewCoins_nil. simpl.
  destruct (calculateTotalSupply_range_total bs []) as [total Htotal];
    [done|constructor|done|intros d; apply Hlt|].
  exists total. split; [done|]. split.
  - eapply calculateTotalSupply_range_canonical; [apply canonical_nil|done].
  - intros d. by rewrite (calculateTotalSupply_range_amount _ _ _ Htotal).
Qed.

(** What any completed run of [calculateTotalSupply] yields. *)
Lemma calculateTotalSupply_inv (bs : list banktypes.Balance) (total : Coins) :
  calculateTotalSupply bs = Some total ->
  canonical total /\ forall d, amountOf d total = supplyOf d bs.
Proof.
  unfold calculateTotalSupply. rewrite NewCoins_nil. simpl. intros Hrun. split.
  - eapply calculateTotalSupply_range_canonical; [apply canonical_nil|done].
  - intros d. by rewrite (calculateTotalSupply_range_amount _ _ _ Hrun).
Qed.

(** C3: whatever the balances, a result of [calculateTotalSupply] holds, for
    every denomination, the sum of the amounts that the balances hold of it,
    and is the result for every reordering of the balances that has one; on
    balances whose coins are sorted and non-negative and whose totals fit the
    256 bits of an amount, [calculateTotalSupply] has a result, for every
    order of the balances. *)
Theorem calculateTotalSupply_sum (fundedAccountsBalances : list banktypes.Balance) :
  (forall total,
      calculateTotalSupply fundedAccountsBalances = Some total ->
      (forall denom, amountOf denom total = supplyOf denom fundedAccountsBalances) /\
      (forall reordered total',
          reordered ≡ₚ fundedAccountsBalances ->
          calculateTotalSupply reordered = Some total' -> total' = total)) /\
  (Forall validBalance fundedAccountsBalances ->
   (forall denom, supplyOf denom fundedAccountsBalances < 2 ^ 256) ->
   exists total,
     calculateTotalSupply fundedAccountsBalances = Some total /\
     (forall reordered, reordered ≡ₚ fundedAccountsBalances ->
                        calculateTotalSupply reordered = Some total)).
Proof.
  assert (forall bs bs' total total',
             bs' ≡ₚ bs -> calculateTotalSupply bs = Some total ->
             calculateTotalSupply bs' = Some total' -> total' = total) as Horder.
  { intros bs bs' total total' Hperm [Hcan Hamt]%calculateTotalSupply_inv
           [Hcan' Hamt']%calculateTotalSupply_inv.
    apply canonical_ext; [done|done|].
    intros d. rewrite Hamt, Hamt'. by apply supplyOf_Permutation. }
  split.
  - intros total Hrun. split.
    + by apply calculateTotalSupply_inv in Hrun as [_ Hamt].
    + intros reordered total' Hperm Hrun'. by eapply Horder.
  - intros Hvalid Hfit.
    destruct (calculateTotalSupply_run _ Hvalid Hfit) as (total & Htotal & _ & _).
    exists total. split; [done|].
    intros reordered Hperm.
    destruct (calculateTotalSupply_run reordered) as (total' & Htotal' & _ & _).
    + by rewrite Hperm.
    + intros d. rewrite (supplyOf_Permutation d _ _ Hperm). apply Hfit.
    + rewrite Htotal'. f_equal. by eapply Horder.
Qed.

End TotalSupply.

Section BondedPool.
Context `{Library}.
Import sdktypes.

(** C4: [addBondedModuleAccountToFundedBalances] appends exactly one entry,
    addressed to the bonded-pool module account and holding exactly the
    bonded coin, and the total supply of the result is the total supply of
    the given balances plus that coin. *)
Theorem addBondedModuleAccount_supply (fundedAccountsBalances : list banktypes.Balance)
        (totalBonded : Coin) :
  exists entry,
    addBondedModuleAccountToFundedBalances fundedAccountsBalances totalBonded
      = fundedAccountsBalances ++ [entry] /\
    length (addBondedModuleAccountToFundedBalances fundedAccountsBalances totalBonded)
      = S (length fundedAccountsBalances) /\
    banktypes.Address entry
      = AccAddress_String (authtypes_NewModuleAddress stakingtypes.BondedPoolName) /\
    banktypes.Coins entry = [totalBonded] /\
    calculateTotalSupply
      (addBondedModuleAccountToFundedBalances fundedAccountsBalances totalBonded)
      = (calculateTotalSupply fundedAccountsBalances
           ≫= fun total => Coins_Add total [totalBonded]) /\
    (Forall validBalance fundedAccountsBalances ->
     0 <= Amount totalBonded ->
     (forall denom, supplyOf denom fundedAccountsBalances
                    + coinAmountOf denom totalBonded < 2 ^ 256) ->
     exists total total',
       calculateTotalSupply fundedAccountsBalances = Some total /\
       calculateTotalSupply
         (addBondedModuleAccountToFundedBalances fundedAccountsBalances totalBonded)
         = Some total' /\
       forall denom,
         amountOf denom total' = amountOf denom total + coinAmountOf denom totalBonded).
Proof.
  unfold addBondedModuleAccountToFundedBalances. eexists. split; [reflexivity|].
  split; [rewrite length_app; simpl; lia|]. do 2 (split; [reflexivity|]).
  set (entry := {| banktypes.Address := _; banktypes.Coins := [totalBonded] |}).
  assert (forall d, supplyOf d (fundedAccountsBalances ++ [entry])
                    = supplyOf d fundedAccountsBalances + coinAmountOf d totalBonded)
    as Hsupply.
  { intros d. rewrite supplyOf_app.
    change (supplyOf d [entry]) with (amountOf d [totalBonded] + 0).
    rewrite amountOf_cons. simpl. lia. }
  split.
  - unfold calculateTotalSupply. rewrite NewCoins_nil. simpl.
    rewrite calculateTotalSupply_range_app.
    destruct (calculateTotalSupply_range [] fundedAccountsBalances) as [total|];
      [|done].
    simpl. by destruct (Coins_Add total [totalBonded]).
  - intros Hvalid Hc Hfit.
    destruct (calculateTotalSupply_run fundedAccountsBalances) as (total & Ht & _ & Hamt).
    { done. }
    { intros d. specialize (Hfit d). unfold coinAmountOf in Hfit. case_decide; lia. }
    destruct (calculateTotalSupply_run (fundedAccountsBalances ++ [entry]))
      as (total' & Ht' & _ & Hamt').
    { apply Forall_app. split; [done|]. repeat constructor; done. }
    { intros d. rewrite Hsupply. apply Hfit. }
    exists total, total'. do 2 (split; [done|]).
    intros d. by rewrite Hamt', Hamt, Hsupply.
Qed.

End BondedPool.

(** * Validators and signers *)

Section Signers.
Context `{Library}.

Lemma createValidatorSetAndSigners_loop_drawn (n : nat)
      (tmValidators : list cmttypes.Validator)
      (signers : gmap string cmttypes.PrivValidator) (r : Entropy) :
  exists r',
    createValidatorSetAndSigners_loop n tmValidators signers r
    = (tmValidators ++ map validatorOf (drawn n r), fileSigners signers (drawn n r), r').
Proof.
  revert tmValidators signers r.
  induction n as [|n IH]; intros tmValidators signers r; simpl.
  - exists r. unfold fileSigners. simpl. by rewrite app_nil_r.
  - destruct (mock_NewPV r) as [privVal r1].
    destruct (IH (tmValidators ++ [validatorOf privVal])
                 (<[signerKey privVal := privVal]> signers) r1) as [r' Hloop].
    exists r'.
    destruct (cmttypes.GetPubKey privVal) as [pubKey err] eqn:Hpk.
    replace (cmttypes.NewValidator pubKey 1) with (validatorOf privVal)
      by (unfold validatorOf, pubKeyOf; by rewrite Hpk).
    replace (cmttypes.Address_String (cmttypes.PubKey_Address pubKey))
      with (signerKey privVal) by (unfold signerKey, pubKeyOf; by rewrite Hpk).
    rewrite Hloop. by rewrite <- app_assoc.
Qed.

Lemma fileSigners_spec (l : list cmttypes.PrivValidator)
      (m : gmap string cmttypes.PrivValidator) :
  NoDup (map signerKey l) ->
  (forall privVal, privVal ∈ l -> m !! signerKey privVal = None) ->
  size (fileSigners m l) = (size m + length l)%nat /\
  forall k privVal,
    fileSigners m l !! k = Some privVal
    <-> m !! k = Some privVal \/ (privVal ∈ l /\ signerKey privVal = k).
Proof.
  revert m. induction l as [|x l IH]; intros m Hnd Hfresh.
  - split; [simpl; lia|]. intros k privVal. simpl. split; [by left|].
    intros [?|[?%elem_of_nil _]]; done.
  - simpl in Hnd. apply NoDup_cons in Hnd as [Hx Hnd].
    assert (m !! signerKey x = None) as Hmx by (apply Hfresh, elem_of_cons; by left).
    destruct (IH (<[signerKey x := x]> m)) as [Hsize Hlookup]; [done| |].
    { intros privVal Hin. rewrite lookup_insert_ne.
      - apply Hfresh, elem_of_cons. by right.
      - intros Heq. apply Hx. rewrite Heq.
        change (map signerKey l) with (signerKey <$> l). by apply list_elem_of_fmap_2. }
    unfold fileSigners in *. simpl. split.
    + rewrite Hsize, map_size_insert_None by done. simpl. lia.
    + intros k privVal. rewrite Hlookup, elem_of_cons.
      destruct (decide (signerKey x = k)) as [<-|Hne].
      * rewrite lookup_insert_eq, Hmx. split.
        -- intros [[= <-]|[Hin Hk]]; right; split; auto.
        -- intros [?|[[->|Hin] Hk]]; [done|by left|by right].
      * rewrite lookup_insert_ne by done. split.
        -- intros [?|[Hin Hk]]; [by left|right; split; auto].
        -- intros [?|[[->|Hin] Hk]]; [by left|done|by right].
Qed.

Lemma drawn_length (n : nat) (r : Entropy) : length (drawn n r) = n.
Proof.
  revert r. induction n as [|n IH]; intros r; simpl; [done|].
  destruct (mock_NewPV r) as [privVal r1]. simpl. by rewrite IH.
Qed.

Lemma totalVotingPower_validatorOf (l : list cmttypes.PrivValidator) :
  cmttypes.totalVotingPower (map validatorOf l) = Z.of_nat (length l).
Proof.
  induction l as [|privVal l IH]; [done|].
  simpl map. unfold cmttypes.totalVotingPower in *. simpl foldr. rewrite IH.
  simpl. lia.
Qed.

(** What a run of [createValidatorSetAndSigners] yields when the drawn keys
    are pairwise distinct. *)
Lemma createValidatorSetAndSigners_run (numberOfValidators : Z) (r : Entropy) :
  validatorSetContract ->
  0 <= numberOfValidators <= cmttypes.MaxTotalVotingPower ->
  distinctKeys (drawn (Z.to_nat numberOfValidators) r) ->
  exists vs r',
    createValidatorSetAndSigners numberOfValidators r
    = Some (vs, fileSigners ∅ (drawn (Z.to_nat numberOfValidators) r), r') /\
    map cmttypes.identity (cmttypes.Validators vs)
      ≡ₚ map cmttypes.identity
             (map validatorOf (drawn (Z.to_nat numberOfValidators) r)).
Proof.
  intros Hcontract Hn [Hnd Hne]. unfold createValidatorSetAndSigners.
  destruct (numberOfValidators <? 0) eqn:Hneg; [apply Z.ltb_lt in Hneg; lia|].
  destruct (createValidatorSetAndSigners_loop_drawn
              (Z.to_nat numberOfValidators) [] ∅ r) as [r' ->].
  simpl.
  assert (length (drawn (Z.to_nat numberOfValidators) r) = Z.to_nat numberOfValidators)
    as Hlen by apply drawn_length.
  set (l := drawn (Z.to_nat numberOfValidators) r) in *.
  destruct (Hcontract (map validatorOf l)) as (vs & Hvs & Hperm).
  - rewrite map_map. simpl.
    change (map signerKey l) with (signerKey <$> l) in Hnd.
    change (NoDup ((fun x => cmttypes.PubKey_Address (pubKeyOf x)) <$> l)).
    unfold signerKey in Hnd.
    rewrite (list_fmap_compose (fun x => cmttypes.PubKey_Address (pubKeyOf x))
                               cmttypes.Address_String) in Hnd.
    by apply NoDup_fmap_1 in Hnd.
  - rewrite Forall_forall. intros v (pv & <- & Hpv)%list_elem_of_In%in_map_iff. simpl.
    rewrite Forall_forall in Hne. by apply Hne, list_elem_of_In.
  - rewrite Forall_forall. intros v (pv & <- & _)%list_elem_of_In%in_map_iff. simpl. lia.
  - rewrite totalVotingPower_validatorOf. lia.
  - rewrite Hvs. simpl. by exists vs, r'.
Qed.

Lemma identity_members (vs l : list cmttypes.Validator) :
  map cmttypes.identity vs ≡ₚ map cmttypes.identity l ->
  forall v, v ∈ vs -> exists v', v' ∈ l /\ cmttypes.identity v = cmttypes.identity v'.
Proof.
  intros Hperm v Hv.
  assert (In (cmttypes.identity v) (map cmttypes.identity l)) as Hin.
  { eapply Permutation_in; [exact Hperm|]. apply in_map. by apply list_elem_of_In. }
  apply in_map_iff in Hin as (v' & Heq & Hv'). exists v'. split; [|done].
  by apply list_elem_of_In.
Qed.

(** C1: for a non-negative count (within the total voting power a validator
    set may have), the generated keys having distinct addresses,
    [createValidatorSetAndSigners] returns, without panic and having no error
    result, a validator set of exactly that many validators, each of voting
    power 1, and a signer map of exactly that many entries, whose keys are the
    address strings of the validators' public keys; for a count of zero both
    are empty. *)
Theorem createValidatorSetAndSigners_count (numberOfValidators : Z) (r : Entropy) :
  validatorSetContract ->
  0 <= numberOfValidators <= cmttypes.MaxTotalVotingPower ->
  distinctKeys (drawn (Z.to_nat numberOfValidators) r) ->
  exists vs signers r',
    createValidatorSetAndSigners numberOfValidators r = Some (vs, signers, r') /\
    Z.of_nat (length (cmttypes.Validators vs)) = numberOfValidators /\
    Forall (fun v => cmttypes.VotingPower v = 1) (cmttypes.Validators vs) /\
    Z.of_nat (size signers) = numberOfValidators /\
    (forall v, v ∈ cmttypes.Validators vs ->
       exists privVal,
         signers !! cmttypes.Address_String (cmttypes.PubKey_Address (cmttypes.PubKey_ v))
           = Some privVal /\
         pubKeyOf privVal = cmttypes.PubKey_ v) /\
    (forall k privVal, signers !! k = Some privVal ->
       exists v, v ∈ cmttypes.Validators vs /\
                 pubKeyOf privVal = cmttypes.PubKey_ v /\
                 k = cmttypes.Address_String (cmttypes.PubKey_Address (cmttypes.PubKey_ v))) /\
    (numberOfValidators = 0 -> cmttypes.Validators vs = [] /\ signers = ∅).
Proof.
  intros Hcontract Hn Hkeys.
  destruct (createValidatorSetAndSigners_run _ r Hcontract Hn Hkeys)
    as (vs & r' & Hrun & Hperm).
  destruct Hkeys as [Hnd _].
  set (l := drawn (Z.to_nat numberOfValidators) r) in *.
  destruct (fileSigners_spec l ∅ Hnd) as [Hsize Hlookup]; [by intros|].
  assert (length (cmttypes.Validators vs) = Z.to_nat numberOfValidators) as Hlen.
  { apply Permutation_length in Hperm. rewrite !length_map in Hperm.
    rewrite Hperm. apply drawn_length. }
  exists vs, (fileSigners ∅ l), r'. split; [done|]. split; [lia|]. split.
  { rewrite Forall_forall. intros v Hv.
    destruct (identity_members _ _ Hperm v Hv) as (v' & Hv' & Hid).
    apply list_elem_of_In, in_map_iff in Hv' as (privVal & <- & _).
    by injection Hid as _ _ ->. }
  split.
  { rewrite Hsize, map_size_empty. unfold l. rewrite drawn_length. lia. }
  split.
  { intros v Hv.
    destruct (identity_members _ _ Hperm v Hv) as (v' & Hv' & Hid).
    apply list_elem_of_In, in_map_iff in Hv' as (privVal & <- & Hin).
    injection Hid as _ Hpk _. simpl in Hpk. exists privVal. split; [|done].
    apply Hlookup. right. split; [by apply list_elem_of_In|].
    unfold signerKey. by rewrite Hpk. }
  split.
  { intros k privVal [Hk|[Hin <-]]%Hlookup; [by rewrite lookup_empty in Hk|].
    destruct (identity_members (map validatorOf l) (cmttypes.Validators vs))
      with (v := validatorOf privVal) as (v & Hv & Hid).
    - by symmetry.
    - apply list_elem_of_In, in_map. by apply list_elem_of_In.
    - injection Hid as _ Hpk _. simpl in Hpk. exists v. split; [done|].
      split; [done|]. unfold signerKey. by rewrite Hpk. }
  intros ->. split.
  - by apply nil_length_inv.
  - done.
Qed.

End Signers.

(** * Staking validators *)

Section StakingValidators.
Context `{Library}.

Lemma createStakingValidator_conversion (val : cmttypes.Validator) (bondedAmt : sdkmath.Int) :
  match pubKeyConversion val with
  | Err err => createStakingValidator val bondedAmt = Err err
  | Ok pkAny =>
      exists v, createStakingValidator val bondedAmt = Ok v /\
                stakingtypes.OperatorAddress v = ValAddress_String (cmttypes.Address_ val) /\
                stakingtypes.ConsensusPubkey v = pkAny /\
                stakingtypes.Rates (stakingtypes.Commission_ v)
                  = stakingtypes.mkCommissionRates (sdkmath.mkDec 0) (sdkmath.mkDec 0)
                                                   (sdkmath.mkDec 0) /\
                stakingtypes.Status v = stakingtypes.Bonded /\
                stakingtypes.Jailed v = false /\
                stakingtypes.Tokens v = bondedAmt /\
                stakingtypes.DelegatorShares v = sdkmath.mkDec (1 * 10 ^ 18) /\
                stakingtypes.MinSelfDelegation v = 0 /\
                stakingtypes.UnbondingHeight v = 0 /\
                stakingtypes.UnbondingTime v = time.mkInstant 0 0 time.UTC
  end.
Proof.
  unfold pubKeyConversion, createStakingValidator.
  destruct (cryptocodec_FromTmPubKeyInterface (cmttypes.PubKey_ val)) as [pk|err]; [|done].
  destruct (codectypes_NewAnyWithValue pk) as [pkAny|err]; [|done].
  eexists. split; [reflexivity|]. repeat split.
Qed.

Lemma createStakingValidator_Err (val : cmttypes.Validator) (bondedAmt : sdkmath.Int)
      (e : error) :
  createStakingValidator val bondedAmt = Err e <-> pubKeyConversion val = Err e.
Proof.
  pose proof (createStakingValidator_conversion val bondedAmt) as Hc.
  destruct (pubKeyConversion val) as [pkAny|err].
  - destruct Hc as (v & -> & _). split; discriminate.
  - rewrite Hc. split; by intros [= ->].
Qed.

Lemma createStakingValidators_range_Ok (tmValidators : list cmttypes.Validator)
      (bondedAmt : sdkmath.Int) (stakingValidators : list stakingtypes.Validator) :
  Forall (fun val => exists pkAny, pubKeyConversion val = Ok pkAny) tmValidators ->
  exists records,
    createStakingValidators_range tmValidators bondedAmt stakingValidators
    = Ok (stakingValidators ++ records) /\
    Forall2 (fun val v => createStakingValidator val bondedAmt = Ok v)
            tmValidators records.
Proof.
  intros Hall. revert stakingValidators.
  induction Hall as [|val rest [pkAny Hval] _ IH]; intros stakingValidators; simpl.
  - exists []. split; [by rewrite app_nil_r|constructor].
  - pose proof (createStakingValidator_conversion val bondedAmt) as Hc.
    rewrite Hval in Hc. destruct Hc as (v & Hv & _). rewrite Hv.
    destruct (IH (stakingValidators ++ [v])) as (records & -> & Hrec).
    exists (v :: records). split; [by rewrite <- app_assoc|by constructor].
Qed.

Lemma createStakingValidators_range_Err (tmValidators : list cmttypes.Validator)
      (bondedAmt : sdkmath.Int) (stakingValidators : list stakingtypes.Validator)
      (e : error) :
  createStakingValidators_range tmValidators bondedAmt stakingValidators = Err e
  <-> exists front val back,
        tmValidators = front ++ val :: back /\
        Forall (fun v => exists pkAny, pubKeyConversion v = Ok pkAny) front /\
        pubKeyConversion val = Err e.
Proof.
  revert stakingValidators.
  induction tmValidators as [|val rest IH]; intros stakingValidators; simpl.
  - split; [done|]. intros (front & v & back & Heq & _). by destruct front.
  - destruct (createStakingValidator val bondedAmt) as [v|err] eqn:Hv.
    + assert (exists pkAny, pubKeyConversion val = Ok pkAny) as Hok.
      { pose proof (createStakingValidator_conversion val bondedAmt) as Hc.
        destruct (pubKeyConversion val) as [pkAny|err]; [by exists pkAny|congruence]. }
      rewrite IH. split.
      * intros (front & v' & back & -> & Hfront & Hv').
        exists (val :: front), v', back. split; [done|]. split; [by constructor|done].
      * intros (front & v' & back & Heq & Hfront & Hv').
        destruct front as [|x front]; simpl in Heq; injection Heq as -> ->.
        -- destruct Hok as [pkAny Hok]. congruence.
        -- apply Forall_cons in Hfront as [_ Hfront]. by exists front, v', back.
    + apply createStakingValidator_Err in Hv. split.
      * intros [= ->]. exists [], val, rest. split; [done|]. split; [constructor|done].
      * intros (front & v' & back & Heq & Hfront & Hv').
        destruct front as [|x front]; simpl in Heq; injection Heq as -> ->.
        -- congruence.
        -- apply Forall_cons in Hfront as [[pkAny Hx] _]. congruence.
Qed.

(** C9: when the conversion of its public key succeeds, a consensus validator
    yields a staking record with the key in its [Any] envelope, zero
    commission rates, bonded status, not jailed, delegator shares 1.0, zero
    minimum self-delegation, zero unbonding height and the Unix epoch as
    unbonding time; [createStakingValidators] yields one such record per
    validator, in order. *)
Theorem createStakingValidators_records (tmValidators : list cmttypes.Validator)
        (bondedAmt : sdkmath.Int) :
  (forall val pkAny,
      pubKeyConversion val = Ok pkAny ->
      exists v, createStakingValidator val bondedAmt = Ok v /\
                stakingtypes.OperatorAddress v = ValAddress_String (cmttypes.Address_ val) /\
                stakingtypes.ConsensusPubkey v = pkAny /\
                stakingtypes.Rates (stakingtypes.Commission_ v)
                  = stakingtypes.mkCommissionRates (sdkmath.mkDec 0) (sdkmath.mkDec 0)
                                                   (sdkmath.mkDec 0) /\
                stakingtypes.Status v = stakingtypes.Bonded /\
                stakingtypes.Jailed v = false /\
                stakingtypes.Tokens v = bondedAmt /\
                stakingtypes.DelegatorShares v = sdkmath.mkDec (1 * 10 ^ 18) /\
                stakingtypes.MinSelfDelegation v = 0 /\
                stakingtypes.UnbondingHeight v = 0 /\
                stakingtypes.UnbondingTime v = time.mkInstant 0 0 time.UTC) /\
  (Forall (fun val => exists pkAny, pubKeyConversion val = Ok pkAny) tmValidators ->
   exists records,
     createStakingValidators tmValidators bondedAmt = Ok records /\
     length records = length tmValidators /\
     Forall2 (fun val v => createStakingValidator val bondedAmt = Ok v)
             tmValidators records).
Proof.
  split.
  - intros val pkAny Hval.
    pose proof (createStakingValidator_conversion val bondedAmt) as Hc.
    by rewrite Hval in Hc.
  - intros Hall.
    destruct (createStakingValidators_range_Ok tmValidators bondedAmt [] Hall)
      as (records & Hrun & Hrec).
    exists records. split; [done|]. split; [|done].
    symmetry. by eapply Forall2_length.
Qed.

End StakingValidators.

(** * Genesis composers *)

Section Composers.
Context `{Library}.

Lemma mapassign_at (l : loc) (m : GenesisState) (h : heap) (key : string)
      (value : RawMessage) :
  h !! l = Some m ->
  mapassign (mapat l) key value h = Some (tt, <[l := <[key := value]> m]> h).
Proof. intros Hl. unfold mapassign. by rewrite Hl. Qed.

Lemma assertInflationGenesis_None (v : any) :
  assertInflationGenesis v = None <-> forall g, v <> InflationGenesisPtr g.
Proof. destruct v; simpl; split; try done; intros Hg; by destruct (Hg g). Qed.

Lemma assertEvmGenesis_None (v : any) :
  assertEvmGenesis v = None <-> forall g, v <> EvmGenesisPtr g.
Proof. destruct v; simpl; split; try done; intros Hg; by destruct (Hg g). Qed.

Lemma setInflationGenesisState_mismatch (evmosApp : Evmos) (genesisState : mapref)
      (customGenesis : CustomGenesisState) (h : heap) (custGen : any) :
  customGenesis !! infltypes_ModuleName = Some custGen ->
  (forall g, custGen <> InflationGenesisPtr g) ->
  setInflationGenesisState evmosApp genesisState customGenesis h
  = Some ((nilmap, Some (invalidTypeError custGen "inflation")), h).
Proof.
  intros Hfound Hty%assertInflationGenesis_None.
  unfold setInflationGenesisState. by rewrite Hfound, Hty.
Qed.

Lemma setInflationGenesisState_typed (evmosApp : Evmos) (l : loc) (m : GenesisState)
      (customGenesis : CustomGenesisState) (h : heap) (g : infltypes_GenesisState) :
  customGenesis !! infltypes_ModuleName = Some (InflationGenesisPtr g) ->
  h !! l = Some m ->
  setInflationGenesisState evmosApp (mapat l) customGenesis h
  = Some ((mapat l, None),
          <[l := <[infltypes_ModuleName :=
                     MustMarshalJSON (AppCodec evmosApp) (InflationGenesisMsg g)]> m]> h).
Proof.
  intros Hfound Hl. unfold setInflationGenesisState. rewrite Hfound. simpl.
  unfold bind. by rewrite (mapassign_at l m).
Qed.

Lemma setInflationGenesisState_error_inv (evmosApp : Evmos) (genesisState : mapref)
      (customGenesis : CustomGenesisState) (h h' : heap) (returned : mapref) (e : error) :
  setInflationGenesisState evmosApp genesisState customGenesis h
  = Some ((returned, Some e), h') ->
  returned = nilmap /\ h' = h /\
  exists custGen, customGenesis !! infltypes_ModuleName = Some custGen /\
                  (forall g, custGen <> InflationGenesisPtr g) /\
                  e = invalidTypeError custGen "inflation".
Proof.
  unfold setInflationGenesisState.
  destruct (customGenesis !! infltypes_ModuleName) as [custGen|] eqn:Hfound.
  - destruct (assertInflationGenesis custGen) as [g|] eqn:Hty.
    + unfold bind. destruct (mapassign _ _ _ h) as [[[] h1]|]; [|done]. done.
    + unfold ret at 1. intros [= <- <- <-]. do 2 (split; [done|]).
      exists custGen. split; [done|]. split; [|done].
      by apply assertInflationGenesis_None.
  - unfold bind. destruct (mapassign _ _ _ h) as [[[] h1]|]; [|done]. done.
Qed.

Lemma setEVMGenesisState_mismatch (evmosApp : Evmos) (genesisState : mapref)
      (customGenesis : CustomGenesisState) (h : heap) (custGen : any) :
  customGenesis !! evmtypes_ModuleName = Some custGen ->
  (forall g, custGen <> EvmGenesisPtr g) ->
  setEVMGenesisState evmosApp genesisState customGenesis h
  = Some ((nilmap, Some (invalidTypeError custGen "evm")), h).
Proof.
  intros Hfound Hty%assertEvmGenesis_None.
  unfold setEVMGenesisState. by rewrite Hfound, Hty.
Qed.

Lemma setEVMGenesisState_typed (evmosApp : Evmos) (l : loc) (m : GenesisState)
      (customGenesis : CustomGenesisState) (h : heap) (g : EvmGenesis) :
  customGenesis !! evmtypes_ModuleName = Some (EvmGenesisPtr g) ->
  h !! l = Some m ->
  setEVMGenesisState evmosApp (mapat l) customGenesis h
  = Some ((mapat l, None),
          <[l := <[evmtypes_ModuleName :=
                     MustMarshalJSON (AppCodec evmosApp) (EvmGenesisMsg g)]> m]> h).
Proof.
  intros Hfound Hl. unfold setEVMGenesisState. rewrite Hfound. simpl.
  unfold bind. by rewrite (mapassign_at l m).
Qed.

Lemma setEVMGenesisState_error_inv (evmosApp : Evmos) (genesisState : mapref)
      (customGenesis : CustomGenesisState) (h h' : heap) (returned : mapref) (e : error) :
  setEVMGenesisState evmosApp genesisState customGenesis h
  = Some ((returned, Some e), h') ->
  returned = nilmap /\ h' = h /\
  exists custGen, customGenesis !! evmtypes_ModuleName = Some custGen /\
                  (forall g, custGen <> EvmGenesisPtr g) /\
                  e = invalidTypeError custGen "evm".
Proof.
  unfold setEVMGenesisState.
  destruct (customGenesis !! evmtypes_ModuleName) as [custGen|] eqn:Hfound; [|done].
  destruct (assertEvmGenesis custGen) as [g|] eqn:Hty.
  - unfold bind. destruct (mapassign _ _ _ h) as [[[] h1]|]; [|done]. done.
  - unfold ret at 1. intros [= <- <- <-]. do 2 (split; [done|]).
    exists custGen. split; [done|]. split; [|done].
    by apply assertEvmGenesis_None.
Qed.

Lemma droppedErrors_nil (n : nat) (r : Entropy) :
  mockSignerContract -> Forall (fun err => err = None) (droppedErrors n r).
Proof.
  intros Hmock. unfold droppedErrors. revert r.
  induction n as [|n IH]; intros r; simpl; [constructor|].
  pose proof (Hmock r) as Hr. destruct (mock_NewPV r) as [privVal r1]. simpl in *.
  constructor; [done|apply IH].
Qed.

Lemma NewCoins_single (coin : sdktypes.Coin) :
  sdktypes.ValidateDenom (sdktypes.Denom coin) = true ->
  0 <= sdktypes.Amount coin ->
  is_Some (sdktypes.NewCoins [coin]).
Proof.
  intros Hdenom Hamt. unfold sdktypes.NewCoins, sdktypes.sanitizeCoins,
    sdktypes.removeZeroCoins.
  rewrite filter_cons, filter_nil.
  destruct (decide (sdktypes.Coin_IsZero coin = false)) as [Hnz|Hz]; simpl; [|done].
  unfold sdktypes.Validate. simpl. rewrite Hdenom. simpl.
  apply Coin_IsZero_false in Hnz.
  unfold sdktypes.Coin_IsPositive, sdkmath.Int_IsPositive.
  destruct (0 <? sdktypes.Amount coin) eqn:Hpos; [done|].
  apply Z.ltb_ge in Hpos. lia.
Qed.

Lemma createBalances_range_total (accounts : list AccAddress) (coin : sdktypes.Coin)
      (fundedAccountBalances : list banktypes.Balance) :
  is_Some (sdktypes.NewCoins [coin]) ->
  is_Some (createBalances_range accounts coin fundedAccountBalances).
Proof.
  intros [coins Hcoins]. revert fundedAccountBalances.
  induction accounts as [|acc rest IH]; intros fundedAccountBalances; simpl; [done|].
  rewrite Hcoins. simpl. apply IH.
Qed.

Lemma setStakingGenesisState_total (evmosApp : Evmos) (l : loc) (m : GenesisState)
      (overwriteParams : StakingCustomGenesisState) (h : heap) :
  h !! l = Some m -> is_Some (setStakingGenesisState evmosApp (mapat l) overwriteParams h).
Proof.
  intros Hl. unfold setStakingGenesisState, bind. by rewrite (mapassign_at l m).
Qed.

Lemma setAuthGenesisState_total (evmosApp : Evmos) (l : loc) (m : GenesisState)
      (genAccounts : list authtypes.GenesisAccount) (h : heap) :
  h !! l = Some m -> is_Some (setAuthGenesisState evmosApp (mapat l) genAccounts h).
Proof.
  intros Hl. unfold setAuthGenesisState, bind. by rewrite (mapassign_at l m).
Qed.

Lemma setBankGenesisState_total (evmosApp : Evmos) (l : loc) (m : GenesisState)
      (overwriteParams : BankCustomGenesisState) (h : heap) :
  h !! l = Some m -> is_Some (setBankGenesisState evmosApp (mapat l) overwriteParams h).
Proof.
  intros Hl. unfold setBankGenesisState, bind. by rewrite (mapassign_at l m).
Qed.

(** C2: an error is handed back to the caller in exactly two situations, the
    failure of a public-key conversion in [createStakingValidator] (passed on
    unchanged, also through [createStakingValidators], which stops at the
    first one) and a custom genesis override of the wrong dynamic type in
    [setInflationGenesisState] or [setEVMGenesisState].  The one error result
    that is bound to the blank identifier, in the loop of
    [createValidatorSetAndSigners], is nil for every signer that [mock.NewPV]
    makes.  The remaining helpers have no error result, and on validated
    inputs (a non-negative count and distinct keys, a valid coin, valid
    balances, a genesis map that exists) they run to completion;
    [createGenesisAccounts], [createEvmosApp], [createDelegations] and
    [addBondedModuleAccountToFundedBalances] are total functions. *)
Theorem errors_returned_in_two_situations :
  mockSignerContract ->
  validatorSetContract ->
  ((forall n r, Forall (fun err => err = None) (droppedErrors n r)) /\
   (forall val bondedAmt e,
       createStakingValidator val bondedAmt = Err e <-> pubKeyConversion val = Err e) /\
   (forall tmValidators bondedAmt e,
       createStakingValidators tmValidators bondedAmt = Err e
       <-> exists front val back,
             tmValidators = front ++ val :: back /\
             Forall (fun v => exists pkAny, pubKeyConversion v = Ok pkAny) front /\
             pubKeyConversion val = Err e) /\
   (forall evmosApp genesisState (customGenesis : CustomGenesisState) (h : heap) e,
       returnsError (setInflationGenesisState evmosApp genesisState customGenesis h) e
       <-> exists custGen,
             customGenesis !! infltypes_ModuleName = Some custGen /\
             (forall g, custGen <> InflationGenesisPtr g) /\
             e = invalidTypeError custGen "inflation") /\
   (forall evmosApp genesisState (customGenesis : CustomGenesisState) (h : heap) e,
       returnsError (setEVMGenesisState evmosApp genesisState customGenesis h) e
       <-> exists custGen,
             customGenesis !! evmtypes_ModuleName = Some custGen /\
             (forall g, custGen <> EvmGenesisPtr g) /\
             e = invalidTypeError custGen "evm")) /\
  ((forall numberOfValidators r,
       0 <= numberOfValidators <= cmttypes.MaxTotalVotingPower ->
       distinctKeys (drawn (Z.to_nat numberOfValidators) r) ->
       is_Some (createValidatorSetAndSigners numberOfValidators r)) /\
   (forall accounts coin,
       sdktypes.ValidateDenom (sdktypes.Denom coin) = true ->
       0 <= sdktypes.Amount coin ->
       is_Some (createBalances accounts coin)) /\
   (forall fundedAccountsBalances,
       Forall validBalance fundedAccountsBalances ->
       (forall denom, supplyOf denom fundedAccountsBalances < 2 ^ 256) ->
       is_Some (calculateTotalSupply fundedAccountsBalances)) /\
   (forall evmosApp l m (h : heap),
       h !! l = Some m ->
       (forall overwriteParams,
           is_Some (setStakingGenesisState evmosApp (mapat l) overwriteParams h)) /\
       (forall genAccounts,
           is_Some (setAuthGenesisState evmosApp (mapat l) genAccounts h)) /\
       (forall overwriteParams,
           is_Some (setBankGenesisState evmosApp (mapat l) overwriteParams h)))).
Proof.
  intros Hmock Hcontract. split.
  - split; [intros n r; by apply droppedErrors_nil|].
    split; [apply createStakingValidator_Err|].
    split; [intros; apply createStakingValidators_range_Err|].
    split.
    + intros evmosApp genesisState customGenesis h e. split.
      * intros (returned & h' & Hrun).
        by apply setInflationGenesisState_error_inv in Hrun as (_ & _ & Hcause).
      * intros (custGen & Hfound & Hty & ->). exists nilmap, h.
        by apply setInflationGenesisState_mismatch.
    + intros evmosApp genesisState customGenesis h e. split.
      * intros (returned & h' & Hrun).
        by apply setEVMGenesisState_error_inv in Hrun as (_ & _ & Hcause).
      * intros (custGen & Hfound & Hty & ->). exists nilmap, h.
        by apply setEVMGenesisState_mismatch.
  - split.
    { intros n r Hn Hnd.
      destruct (createValidatorSetAndSigners_run n r Hcontract Hn Hnd)
        as (vs & r' & -> & _). done. }
    split.
    { intros accounts coin Hdenom Hamt. apply createBalances_range_total.
      by apply NewCoins_single. }
    split.
    { intros bs Hvalid Hfit.
      destruct (calculateTotalSupply_run bs Hvalid Hfit) as (total & -> & _). done. }
    intros evmosApp l m h Hl. split; [|split]; intros.
    + by eapply setStakingGenesisState_total.
    + by eapply setAuthGenesisState_total.
    + by eapply setBankGenesisState_total.
Qed.

(** C5: an inflation (resp. EVM) override of another dynamic type than the
    module's genesis state makes the composer return the type-mismatch error;
    an override of that type is serialized as it is and stored under the
    module's key of the genesis map. *)
Theorem custom_override_checked_then_installed (evmosApp : Evmos)
        (customGenesis : CustomGenesisState) (h : heap) :
  (forall custGen,
      customGenesis !! infltypes_ModuleName = Some custGen ->
      (forall genesisState,
          (forall g, custGen <> InflationGenesisPtr g) ->
          setInflationGenesisState evmosApp genesisState customGenesis h
          = Some ((nilmap, Some (invalidTypeError custGen "inflation")), h)) /\
      (forall g l m,
          custGen = InflationGenesisPtr g -> h !! l = Some m ->
          setInflationGenesisState evmosApp (mapat l) customGenesis h
          = Some ((mapat l, None),
                  <[l := <[infltypes_ModuleName :=
                             MustMarshalJSON (AppCodec evmosApp)
                                             (InflationGenesisMsg g)]> m]> h))) /\
  (forall custGen,
      customGenesis !! evmtypes_ModuleName = Some custGen ->
      (forall genesisState,
          (forall g, custGen <> EvmGenesisPtr g) ->
          setEVMGenesisState evmosApp genesisState customGenesis h
          = Some ((nilmap, Some (invalidTypeError custGen "evm")), h)) /\
      (forall g l m,
          custGen = EvmGenesisPtr g -> h !! l = Some m ->
          setEVMGenesisState evmosApp (mapat l) customGenesis h
          = Some ((mapat l, None),
                  <[l := <[evmtypes_ModuleName :=
                             MustMarshalJSON (AppCodec evmosApp)
                                             (EvmGenesisMsg g)]> m]> h))).
Proof.
  split; intros custGen Hfound; split.
  - intros genesisState Hty. by apply setInflationGenesisState_mismatch.
  - intros g l m -> Hl. by apply setInflationGenesisState_typed.
  - intros genesisState Hty. by apply setEVMGenesisState_mismatch.
  - intros g l m -> Hl. by apply setEVMGenesisState_typed.
Qed.

(** C6: without an inflation override, [setInflationGenesisState] stores
    under the inflation key the serialized genesis state whose parameters are
    the default ones with inflation disabled, whose skipped epochs are zero,
    whose epoch identifier is "day" and whose epochs per period are 365. *)
Theorem default_inflation_section (evmosApp : Evmos) (l : loc) (m : GenesisState)
        (customGenesis : CustomGenesisState) (h : heap) :
  customGenesis !! infltypes_ModuleName = None ->
  h !! l = Some m ->
  exists section,
    setInflationGenesisState evmosApp (mapat l) customGenesis h
    = Some ((mapat l, None),
            <[l := <[infltypes_ModuleName :=
                       MustMarshalJSON (AppCodec evmosApp)
                                       (InflationGenesisMsg section)]> m]> h) /\
    EnableInflation (infl_Params section) = false /\
    inflationSettings (infl_Params section) = inflationSettings infltypes_DefaultParams /\
    infl_SkippedEpochs section = 0 /\
    infl_EpochIdentifier section = "day" /\
    infl_EpochsPerPeriod section = 365.
Proof.
  intros Hfound Hl. eexists. split.
  - unfold setInflationGenesisState. rewrite Hfound. simpl.
    unfold bind. rewrite (mapassign_at l m) by done. reflexivity.
  - repeat split.
Qed.

(** C7: two calls of [setStakingGenesisState] on the same genesis map leave
    what the second call alone leaves.  On a genesis map that exists, the
    staking entry is then the serialization of a section whose bond
    denomination, validators and delegations are those of the second call
    and whose other parameters are the default ones; nothing of the first
    call remains, and the other entries of the map are as before. *)
Theorem setStakingGenesisState_overwrites (evmosApp1 evmosApp2 : Evmos)
        (genesisState : mapref) (first second : StakingCustomGenesisState) (h : heap) :
  bind (setStakingGenesisState evmosApp1 genesisState first)
       (fun genesisState' => setStakingGenesisState evmosApp2 genesisState' second) h
  = setStakingGenesisState evmosApp2 genesisState second h /\
  (forall l m,
      genesisState = mapat l -> h !! l = Some m ->
      exists section,
        bind (setStakingGenesisState evmosApp1 genesisState first)
             (fun genesisState' => setStakingGenesisState evmosApp2 genesisState' second) h
        = Some (mapat l,
                <[l := <["staking" :=
                           MustMarshalJSON (AppCodec evmosApp2)
                                           (StakingGenesisMsg section)]> m]> h) /\
        stakingtypes.BondDenom (stakingtypes.Params_ section) = denom second /\
        stakingtypes.Validators section = validators second /\
        stakingtypes.Delegations section = delegations second /\
        stakingtypes.UnbondingTime_ (stakingtypes.Params_ section)
        = stakingtypes.UnbondingTime_ stakingtypes_DefaultParams /\
        stakingtypes.MaxValidators (stakingtypes.Params_ section)
        = stakingtypes.MaxValidators stakingtypes_DefaultParams /\
        stakingtypes.MaxEntries (stakingtypes.Params_ section)
        = stakingtypes.MaxEntries stakingtypes_DefaultParams /\
        stakingtypes.HistoricalEntries (stakingtypes.Params_ section)
        = stakingtypes.HistoricalEntries stakingtypes_DefaultParams /\
        stakingtypes.MinCommissionRate (stakingtypes.Params_ section)
        = stakingtypes.MinCommissionRate stakingtypes_DefaultParams).
Proof.
  assert (bind (setStakingGenesisState evmosApp1 genesisState first)
               (fun genesisState' => setStakingGenesisState evmosApp2 genesisState' second) h
          = setStakingGenesisState evmosApp2 genesisState second h) as Htwice.
  { unfold setStakingGenesisState, bind, mapassign.
    destruct genesisState as [|l]; [done|].
    destruct (h !! l) as [m|] eqn:Hl; [|done]. simpl.
    rewrite lookup_insert_eq. simpl. by rewrite !insert_insert_eq. }
  split; [exact Htwice|].
  intros l m -> Hl. rewrite Htwice. eexists. split.
  - unfold setStakingGenesisState, bind. rewrite (mapassign_at l m) by done.
    reflexivity.
  - repeat split.
Qed.

(** C8: without an EVM override, [setEVMGenesisState] returns the genesis
    map it was given and changes no entry of it (nor of any other map). *)
Theorem setEVMGenesisState_absent_unchanged (evmosApp : Evmos) (genesisState : mapref)
        (customGenesis : CustomGenesisState) (h : heap) :
  customGenesis !! evmtypes_ModuleName = None ->
  setEVMGenesisState evmosApp genesisState customGenesis h
  = Some ((genesisState, None), h).
Proof.
  intros Hfound. unfold setEVMGenesisState. by rewrite Hfound.
Qed.

(** C10: whenever [setInflationGenesisState] or [setEVMGenesisState] returns
    an error, the store of genesis maps is the one before the call and the
    returned map is nil; and on an override of the wrong type they do return
    the error. *)
Theorem type_mismatch_leaves_genesis_untouched (evmosApp : Evmos)
        (genesisState : mapref) (customGenesis : CustomGenesisState) (h : heap) :
  (forall returned e h',
      setInflationGenesisState evmosApp genesisState customGenesis h
      = Some ((returned, Some e), h') ->
      returned = nilmap /\ h' = h) /\
  (forall returned e h',
      setEVMGenesisState evmosApp genesisState customGenesis h
      = Some ((returned, Some e), h') ->
      returned = nilmap /\ h' = h) /\
  (forall custGen,
      customGenesis !! infltypes_ModuleName = Some custGen ->
      (forall g, custGen <> InflationGenesisPtr g) ->
      exists e, setInflationGenesisState evmosApp genesisState customGenesis h
                = Some ((nilmap, Some e), h)) /\
  (forall custGen,
      customGenesis !! evmtypes_ModuleName = Some custGen ->
      (forall g, custGen <> EvmGenesisPtr g) ->
      exists e, setEVMGenesisState evmosApp genesisState customGenesis h
                = Some ((nilmap, Some e), h)).
Proof.
  split; [|split; [|split]].
  - intros returned e h' Hrun.
    by apply setInflationGenesisState_error_inv in Hrun as (? & ? & _).
  - intros returned e h' Hrun.
    by apply setEVMGenesisState_error_inv in Hrun as (? & ? & _).
  - intros custGen Hfound Hty. eexists. by apply setInflationGenesisState_mismatch.
  - intros custGen Hfound Hty. eexists. by apply setEVMGenesisState_mismatch.
Qed.

End Composers.

(** * Further properties of the helpers *)

Section Accounts.
Context `{Library}.

Lemma createGenesisAccounts_range_map (accounts : list AccAddress)
      (genAccounts : list authtypes.GenesisAccount) :
  createGenesisAccounts_range accounts genAccounts
  = genAccounts
      ++ map (fun acc => authtypes.mkBaseAccount (AccAddress_String acc) None 0 0) accounts.
Proof.
  revert genAccounts. induction accounts as [|acc rest IH]; intros genAccounts; simpl.
  - by rewrite app_nil_r.
  - rewrite IH, <- app_assoc. done.
Qed.

(** X1: [createGenesisAccounts] yields one base account per address, in the
    order of the addresses, each with the address string of its address, no
    public key, account number 0 and sequence 0. *)
Theorem createGenesisAccounts_one_per_address (accounts : list AccAddress) :
  length (createGenesisAccounts accounts) = length accounts /\
  forall i acc,
    accounts !! i = Some acc ->
    createGenesisAccounts accounts !! i
    = Some {| authtypes.Address := AccAddress_String acc;
              authtypes.PubKey := None;
              authtypes.AccountNumber := 0;
              authtypes.Sequence := 0 |}.
Proof.
  unfold createGenesisAccounts. rewrite createGenesisAccounts_range_map. simpl.
  split; [by rewrite length_map|].
  intros i acc Hi.
  change (map ?f accounts) with (f <$> accounts).
  by rewrite list_lookup_fmap, Hi.
Qed.

(** What [NewCoins] makes of a single coin. *)
Lemma NewCoins_single_cases (coin : sdktypes.Coin) :
  sdktypes.NewCoins [coin]
  = if sdktypes.Amount coin =? 0 then Some []
    else if sdktypes.ValidateDenom (sdktypes.Denom coin) && (0 <? sdktypes.Amount coin)
         then Some [coin] else None.
Proof.
  unfold sdktypes.NewCoins, sdktypes.sanitizeCoins, sdktypes.removeZeroCoins.
  rewrite filter_cons, filter_nil.
  unfold sdktypes.Coin_IsZero, sdkmath.Int_IsZero.
  destruct (sdktypes.Amount coin =? 0) eqn:Hz.
  - rewrite decide_False by done. reflexivity.
  - rewrite decide_True by done. simpl. unfold sdktypes.Validate. simpl.
    unfold sdktypes.Coin_IsPositive, sdkmath.Int_IsPositive.
    by rewrite !andb_true_r.
Qed.

Lemma createBalances_range_Some (accounts : list AccAddress) (coin : sdktypes.Coin)
      (coins : sdktypes.Coins) (fundedAccountBalances : list banktypes.Balance) :
  sdktypes.NewCoins [coin] = Some coins ->
  createBalances_range accounts coin fundedAccountBalances
  = Some (fundedAccountBalances
            ++ map (fun acc => banktypes.mkBalance (AccAddress_String acc) coins) accounts).
Proof.
  intros Hcoins. revert fundedAccountBalances.
  induction accounts as [|acc rest IH]; intros fundedAccountBalances; simpl.
  - by rewrite app_nil_r.
  - rewrite Hcoins. simpl. rewrite IH, <- app_assoc. done.
Qed.

(** X2: for a coin of a valid denomination and a positive amount,
    [createBalances] yields one balance per account, in order, addressed by
    the account's address string and holding exactly that coin. *)
Theorem createBalances_one_per_account (accounts : list AccAddress)
        (coin : sdktypes.Coin) :
  sdktypes.ValidateDenom (sdktypes.Denom coin) = true ->
  0 < sdktypes.Amount coin ->
  createBalances accounts coin
  = Some (map (fun acc => banktypes.mkBalance (AccAddress_String acc) [coin]) accounts).
Proof.
  intros Hdenom Hpos. unfold createBalances.
  rewrite (createBalances_range_Some _ _ [coin]); [done|].
  rewrite NewCoins_single_cases, Hdenom.
  destruct (sdktypes.Amount coin =? 0) eqn:Hz; [apply Z.eqb_eq in Hz; lia|].
  destruct (0 <? sdktypes.Amount coin) eqn:Hp; [done|]. apply Z.ltb_ge in Hp. lia.
Qed.

(** X3: for a coin of amount zero, whatever its denomination,
    [createBalances] yields one balance per account that holds no coin at
    all: the zero coin is dropped, not stored. *)
Theorem createBalances_zero_coin (accounts : list AccAddress) (coin : sdktypes.Coin) :
  sdktypes.Amount coin = 0 ->
  createBalances accounts coin
  = Some (map (fun acc => banktypes.mkBalance (AccAddress_String acc) []) accounts).
Proof.
  intros Hz. unfold createBalances.
  rewrite (createBalances_range_Some _ _ []); [done|].
  by rewrite NewCoins_single_cases, Hz.
Qed.

(** X4: [createBalances] panics exactly when there is at least one account
    and the coin is negative, or non-zero with an invalid denomination; with
    no account it returns the empty list whatever the coin. *)
Theorem createBalances_panics_iff (accounts : list AccAddress) (coin : sdktypes.Coin) :
  createBalances accounts coin = None
  <-> accounts <> [] /\
      (sdktypes.Amount coin < 0 \/
       (sdktypes.Amount coin <> 0 /\
        sdktypes.ValidateDenom (sdktypes.Denom coin) = false)).
Proof.
  unfold createBalances. pose proof (NewCoins_single_cases coin) as Hcases.
  destruct (sdktypes.Amount coin =? 0) eqn:Hz.
  { apply Z.eqb_eq in Hz. rewrite (createBalances_range_Some _ _ _ _ Hcases).
    split; [done|]. intros [_ [?|[? _]]]; lia. }
  apply Z.eqb_neq in Hz.
  destruct (sdktypes.ValidateDenom (sdktypes.Denom coin)) eqn:Hdenom;
    destruct (0 <? sdktypes.Amount coin) eqn:Hpos; simpl in Hcases;
    try (rewrite (createBalances_range_Some _ _ _ _ Hcases);
         apply Z.ltb_lt in Hpos; split; [done|]; intros [_ [?|[_ ?]]]; [lia|done]).
  all: try apply Z.ltb_ge in Hpos; try apply Z.ltb_lt in Hpos.
  all: destruct accounts as [|acc rest]; simpl; rewrite ?Hcases; simpl.
  all: split; try done; try (by intros [? _]).
  all: intros _; split; [done|]; first [left; lia | right; done].
Qed.

End Accounts.

Section FundedSupply.
Context `{Library}.
Import sdktypes.

Lemma supplyOf_uniform (d : string) (coins : Coins) (accounts : list AccAddress) :
  supplyOf d (map (fun acc => banktypes.mkBalance (AccAddress_String acc) coins) accounts)
  = Z.of_nat (length accounts) * amountOf d coins.
Proof.
  induction accounts as [|acc rest IH]; [simpl; lia|].
  simpl map. rewrite supplyOf_cons, IH. simpl banktypes.Coins. simpl length. lia.
Qed.

Lemma amountOf_single (d : string) (c : Coin) : amountOf d [c] = coinAmountOf d c.
Proof. rewrite amountOf_cons. simpl. lia. Qed.

(** X5: funding [n] accounts with a valid coin of positive amount [a], the
    total supply of the balances made by [createBalances] is [n * a] of the
    coin's denomination and nothing of any other, as long as [n * a] fits the
    256 bits of an amount; for at least one account it is the single coin
    [n * a]. *)
Theorem createBalances_total_supply (accounts : list AccAddress) (coin : Coin) :
  ValidateDenom (Denom coin) = true ->
  0 < Amount coin ->
  Z.of_nat (length accounts) * Amount coin < 2 ^ 256 ->
  exists fundedAccountBalances total,
    createBalances accounts coin = Some fundedAccountBalances /\
    calculateTotalSupply fundedAccountBalances = Some total /\
    (forall denom,
        amountOf denom total = Z.of_nat (length accounts) * coinAmountOf denom coin) /\
    (accounts <> [] ->
     total = [mkCoin (Denom coin) (Z.of_nat (length accounts) * Amount coin)]).
Proof.
  intros Hdenom Hpos Hfit.
  set (bs := map (fun acc => banktypes.mkBalance (AccAddress_String acc) [coin]) accounts).
  assert (createBalances accounts coin = Some bs) as Hbs.
  { unfold createBalances. rewrite (createBalances_range_Some _ _ [coin]); [done|].
    rewrite NewCoins_single_cases, Hdenom.
    destruct (Amount coin =? 0) eqn:Hz; [apply Z.eqb_eq in Hz; lia|].
    destruct (0 <? Amount coin) eqn:Hp; [done|]. apply Z.ltb_ge in Hp. lia. }
  assert (forall d, supplyOf d bs = Z.of_nat (length accounts) * coinAmountOf d coin)
    as Hsupply.
  { intros d. unfold bs. by rewrite supplyOf_uniform, amountOf_single. }
  destruct (calculateTotalSupply_run bs) as (total & Htotal & Hcan & Hamt).
  - unfold bs. rewrite Forall_forall.
    intros b (acc & <- & _)%list_elem_of_In%in_map_iff.
    split; [done|]. repeat constructor. simpl. lia.
  - intros d. rewrite Hsupply. unfold coinAmountOf. case_decide; lia.
  - exists bs, total. split; [done|]. split; [done|]. split.
    + intros d. by rewrite Hamt.
    + intros Hne. apply canonical_ext; [done| |].
      * split; repeat constructor. simpl.
        destruct accounts; [done|]. simpl length. nia.
      * intros d. rewrite Hamt, Hsupply, amountOf_single.
        unfold coinAmountOf. simpl. case_decide; lia.
Qed.

Lemma canonical_member (d : string) (l : Coins) :
  canonical l -> (exists c, c ∈ l /\ Denom c = d) <-> amountOf d l <> 0.
Proof.
  intros [Hs Hz]. split.
  - intros (c & Hc & <-). induction Hs as [|c' l Hs IH Hc']; [by apply elem_of_nil in Hc|].
    apply Forall_cons in Hz as [Hz' Hz]. rewrite amountOf_cons.
    apply elem_of_cons in Hc as [->|Hc].
    + rewrite amountOf_absent.
      * unfold coinAmountOf. rewrite decide_True by done. lia.
      * eapply Forall_impl; [exact Hc'|]. simpl. intros c0 Hlt Heq.
        unfold denomLt in Hlt. rewrite Heq, ltb_irrefl in Hlt. discriminate.
    + unfold coinAmountOf. rewrite decide_False.
      * specialize (IH Hz Hc). lia.
      * intros Heq. rewrite Forall_forall in Hc'. specialize (Hc' c Hc).
        unfold denomLt in Hc'. rewrite Heq, ltb_irrefl in Hc'. discriminate.
  - intros Hne. destruct (decide (Exists (fun c => Denom c = d) l)) as [Hex|Hnex].
    + apply Exists_exists in Hex as (c & Hc & Hd). by exists c.
    + apply not_Exists_Forall in Hnex; [|intros c; apply _].
      by apply amountOf_absent in Hnex.
Qed.

(** X6: whatever the balances, the coins that [calculateTotalSupply] returns
    are in strictly ascending order of denomination and list exactly the
    denominations of which the balances hold a non-zero amount in total: a
    denomination whose amounts cancel out is absent, not listed with zero. *)
Theorem calculateTotalSupply_lists_nonzero (fundedAccountsBalances : list banktypes.Balance)
        (total : Coins) :
  calculateTotalSupply fundedAccountsBalances = Some total ->
  StronglySorted denomLt total /\
  isSorted total = true /\
  forall denom,
    (exists c, c ∈ total /\ Denom c = denom)
    <-> supplyOf denom fundedAccountsBalances <> 0.
Proof.
  intros [Hcan Hamt]%calculateTotalSupply_inv.
  split; [by destruct Hcan|]. split; [by apply canonical_isSorted|].
  intros d. rewrite <- Hamt. by apply canonical_member.
Qed.

(** X7: a bonded coin of amount zero adds its entry to the balances but
    leaves the total supply as it was. *)
Theorem addBondedModuleAccount_zero_coin (fundedAccountsBalances : list banktypes.Balance)
        (totalBonded : Coin) :
  Forall validBalance fundedAccountsBalances ->
  (forall denom, supplyOf denom fundedAccountsBalances < 2 ^ 256) ->
  Amount totalBonded = 0 ->
  is_Some (calculateTotalSupply fundedAccountsBalances) /\
  calculateTotalSupply
    (addBondedModuleAccountToFundedBalances fundedAccountsBalances totalBonded)
  = calculateTotalSupply fundedAccountsBalances.
Proof.
  intros Hvalid Hfit Hz. unfold addBondedModuleAccountToFundedBalances.
  set (entry := {| banktypes.Address := _; banktypes.Coins := [totalBonded] |}).
  assert (forall d, supplyOf d (fundedAccountsBalances ++ [entry])
                    = supplyOf d fundedAccountsBalances) as Hsupply.
  { intros d. rewrite supplyOf_app.
    change (supplyOf d [entry]) with (amountOf d [totalBonded] + 0).
    rewrite amountOf_single. unfold coinAmountOf. rewrite Hz. case_decide; lia. }
  destruct (calculateTotalSupply_run _ Hvalid Hfit) as (total & Htotal & Hcan & Hamt).
  destruct (calculateTotalSupply_run (fundedAccountsBalances ++ [entry]))
    as (total' & Htotal' & Hcan' & Hamt').
  - apply Forall_app. split; [done|]. repeat constructor. simpl. lia.
  - intros d. rewrite Hsupply. apply Hfit.
  - split; [by rewrite Htotal|]. rewrite Htotal, Htotal'. f_equal.
    apply canonical_ext; [done|done|]. intros d. by rewrite Hamt, Hamt', Hsupply.
Qed.

End FundedSupply.

Section Delegations.
Context `{Library}.

Lemma createDelegations_range_map (tmValidators : list cmttypes.Validator)
      (fromAccount : AccAddress) (delegations : list stakingtypes.Delegation) :
  createDelegations_range tmValidators fromAccount delegations
  = delegations
      ++ map (fun val =>
                stakingtypes.mkDelegation (AccAddress_String fromAccount)
                                          (ValAddress_String (cmttypes.Address_ val))
                                          sdkmath.LegacyOneDec)
             tmValidators.
Proof.
  revert delegations. induction tmValidators as [|val rest IH]; intros delegations; simpl.
  - by rewrite app_nil_r.
  - rewrite IH, <- app_assoc. done.
Qed.

(** X8: [createDelegations] yields one delegation per validator, in order,
    each from the same delegating account to the validator's operator
    address, with shares 1.0; never fewer or more, also when validators
    repeat. *)
Theorem createDelegations_one_per_validator (tmValidators : list cmttypes.Validator)
        (fromAccount : AccAddress) :
  length (createDelegations tmValidators fromAccount) = length tmValidators /\
  forall i val,
    tmValidators !! i = Some val ->
    createDelegations tmValidators fromAccount !! i
    = Some {| stakingtypes.DelegatorAddress := AccAddress_String fromAccount;
              stakingtypes.ValidatorAddress := ValAddress_String (cmttypes.Address_ val);
              stakingtypes.Shares := sdkmath.mkDec (1 * 10 ^ 18) |}.
Proof.
  unfold createDelegations. rewrite createDelegations_range_map. simpl.
  split; [by rewrite length_map|].
  intros i val Hi.
  change (map ?f tmValidators) with (f <$> tmValidators).
  by rewrite list_lookup_fmap, Hi.
Qed.

Lemma createStakingValidators_range_inv (tmValidators : list cmttypes.Validator)
      (bondedAmt : sdkmath.Int) (stakingValidators out : list stakingtypes.Validator) :
  createStakingValidators_range tmValidators bondedAmt stakingValidators = Ok out ->
  exists records,
    out = stakingValidators ++ records /\
    Forall2 (fun val v => createStakingValidator val bondedAmt = Ok v)
            tmValidators records.
Proof.
  revert stakingValidators.
  induction tmValidators as [|val rest IH]; intros stakingValidators; simpl.
  - intros [= <-]. exists []. split; [by rewrite app_nil_r|constructor].
  - destruct (createStakingValidator val bondedAmt) as [v|err] eqn:Hv; [|done].
    intros (records & -> & Hrec)%IH. exists (v :: records).
    split; [by rewrite <- app_assoc|by constructor].
Qed.

(** X9: when [createStakingValidators] succeeds, the delegations that
    [createDelegations] makes from the same validators match its records one
    by one: the i-th delegation goes to the operator address of the i-th
    record and carries exactly that record's delegator shares, and the i-th
    record holds the bonded amount as tokens. *)
Theorem delegations_match_staking_validators (tmValidators : list cmttypes.Validator)
        (bondedAmt : sdkmath.Int) (fromAccount : AccAddress)
        (records : list stakingtypes.Validator) :
  createStakingValidators tmValidators bondedAmt = Ok records ->
  Forall2 (fun delegation v =>
             stakingtypes.ValidatorAddress delegation = stakingtypes.OperatorAddress v /\
             stakingtypes.Shares delegation = stakingtypes.DelegatorShares v /\
             stakingtypes.Tokens v = bondedAmt)
          (createDelegations tmValidators fromAccount) records.
Proof.
  unfold createStakingValidators, createDelegations.
  intros (recs & -> & Hrec)%createStakingValidators_range_inv.
  rewrite createDelegations_range_map. simpl.
  induction Hrec as [|val v rest recs Hv _ IH]; simpl; constructor; [|done].
  pose proof (createStakingValidator_conversion val bondedAmt) as Hc.
  destruct (pubKeyConversion val) as [pkAny|err]; [|congruence].
  destruct Hc as (v' & Hv' & Hop & _ & _ & _ & _ & Htok & Hshares & _).
  assert (v' = v) as -> by congruence. simpl.
  by rewrite Hop, Hshares, Htok.
Qed.

End Delegations.

Section SignerMap.
Context `{Library}.

Lemma fileSigners_dom (l : list cmttypes.PrivValidator)
      (m : gmap string cmttypes.PrivValidator) :
  dom (fileSigners m l) = dom m ∪ list_to_set (map signerKey l).
Proof.
  revert m. induction l as [|x l IH]; intros m; unfold fileSigners in *; simpl.
  - change (list_to_set []) with (∅ : gset string). by rewrite (right_id_L ∅ (∪)).
  - rewrite IH, dom_insert_L.
    change (list_to_set (signerKey x :: map signerKey l))
      with ({[signerKey x]} ∪ list_to_set (map signerKey l) : gset string).
    by rewrite (assoc_L (∪)), (comm_L (∪) {[signerKey x]} (dom m)).
Qed.

Lemma fileSigners_lookup (l : list cmttypes.PrivValidator)
      (m : gmap string cmttypes.PrivValidator) (k : string)
      (privVal : cmttypes.PrivValidator) :
  fileSigners m l !! k = Some privVal ->
  m !! k = Some privVal \/ (privVal ∈ l /\ signerKey privVal = k).
Proof.
  revert m. induction l as [|x l IH]; intros m; unfold fileSigners in *; simpl.
  - by left.
  - intros [Hm|[Hin Hk]]%IH.
    + destruct (decide (signerKey x = k)) as [<-|Hne].
      * rewrite lookup_insert_eq in Hm. injection Hm as <-.
        right. split; [apply elem_of_cons; by left|done].
      * rewrite lookup_insert_ne in Hm by done. by left.
    + right. split; [apply elem_of_cons; by right|done].
Qed.

Lemma size_list_to_set_le (ks : list string) :
  (size (list_to_set ks : gset string) <= length ks)%nat /\
  (size (list_to_set ks : gset string) = length ks <-> NoDup ks).
Proof.
  induction ks as [|k ks [IHle IHeq]]; simpl.
  - split; [done|]. split; [constructor|done].
  - destruct (decide (k ∈ ks)) as [Hin|Hnin].
    + assert (({[k]} ∪ list_to_set ks : gset string) = list_to_set ks) as ->.
      { apply subseteq_union_1_L. apply singleton_subseteq_l.
        by apply elem_of_list_to_set. }
      split; [lia|]. split; [lia|]. by intros [? _]%NoDup_cons.
    + rewrite size_union, size_singleton.
      * split; [lia|]. rewrite NoDup_cons. split.
        -- intros Heq. split; [done|]. apply IHeq. lia.
        -- intros [_ Hnd]. apply IHeq in Hnd. lia.
      * apply disjoint_singleton_l. by rewrite elem_of_list_to_set.
Qed.

(** X10: whatever the keys drawn, a run of [createValidatorSetAndSigners]
    that returns was given a non-negative count, files every signer of its
    map under the address string of that signer's own public key, each of
    them one of the signers drawn, and holds at most as many entries as the
    count: exactly as many if and only if the address strings of the drawn
    keys are pairwise distinct. *)
Theorem createValidatorSetAndSigners_signers (numberOfValidators : Z) (r r' : Entropy)
        (vs : cmttypes.ValidatorSet) (signers : gmap string cmttypes.PrivValidator) :
  createValidatorSetAndSigners numberOfValidators r = Some (vs, signers, r') ->
  0 <= numberOfValidators /\
  (forall k privVal,
      signers !! k = Some privVal ->
      privVal ∈ drawn (Z.to_nat numberOfValidators) r /\ k = signerKey privVal) /\
  Z.of_nat (size signers) <= numberOfValidators /\
  (Z.of_nat (size signers) = numberOfValidators
   <-> NoDup (map signerKey (drawn (Z.to_nat numberOfValidators) r))).
Proof.
  unfold createValidatorSetAndSigners.
  destruct (numberOfValidators <? 0) eqn:Hneg; [done|]. apply Z.ltb_ge in Hneg.
  destruct (createValidatorSetAndSigners_loop_drawn
              (Z.to_nat numberOfValidators) [] ∅ r) as [r1 ->].
  simpl. destruct (cmttypes_NewValidatorSet _) as [vs1|]; [|done]. simpl.
  intros [= <- <- <-]. split; [done|].
  set (l := drawn (Z.to_nat numberOfValidators) r).
  assert (length (map signerKey l) = Z.to_nat numberOfValidators) as Hlen.
  { rewrite length_map. apply drawn_length. }
  assert (size (fileSigners ∅ l) = size (list_to_set (map signerKey l) : gset string))
    as Hsize.
  { rewrite <- size_dom, fileSigners_dom, dom_empty_L. by rewrite (left_id_L ∅ (∪)). }
  destruct (size_list_to_set_le (map signerKey l)) as [Hle Heq].
  split; [|split].
  - intros k privVal [Hk|[Hin Hk]]%fileSigners_lookup; [by rewrite lookup_empty in Hk|].
    done.
  - rewrite Hsize. lia.
  - rewrite Hsize, <- Heq. lia.
Qed.

End SignerMap.

Section ComposersFrame.
Context `{Library}.

Lemma mapassign_inv (genesisState : mapref) (key : string) (value : RawMessage)
      (h h' : heap) (u : unit) :
  mapassign genesisState key value h = Some (u, h') ->
  exists l m, genesisState = mapat l /\ h !! l = Some m /\
              h' = <[l := <[key := value]> m]> h.
Proof.
  unfold mapassign. destruct genesisState as [|l]; [done|].
  destruct (h !! l) as [m|] eqn:Hl; [|done]. intros [= <-]. by exists l, m.
Qed.

Lemma mapassign_None (genesisState : mapref) (key : string) (value : RawMessage)
      (h : heap) :
  mapassign genesisState key value h = None <-> ~ liveMap genesisState h.
Proof.
  unfold mapassign, liveMap. destruct genesisState as [|l].
  - split; [|done]. by intros _ (l & ? & _).
  - destruct (h !! l) as [m|] eqn:Hl.
    + split; [done|]. intros Hno. destruct Hno. exists l. by rewrite Hl.
    + split; [|done]. intros _ (l' & [= <-] & Hsome). rewrite Hl in Hsome.
      by destruct Hsome.
Qed.

Lemma writesOnly_insert (key : string) (value : RawMessage) (l : loc)
      (m : GenesisState) (h : heap) :
  h !! l = Some m -> writesOnly key l h (<[l := <[key := value]> m]> h).
Proof.
  intros Hl. exists m, (<[key := value]> m).
  split; [done|]. split; [by rewrite lookup_insert_eq|].
  split; [by rewrite lookup_insert_eq|]. split.
  - intros k Hk. by rewrite lookup_insert_ne.
  - intros l' Hl'. by rewrite lookup_insert_ne.
Qed.

Lemma assign_then_return_inv (genesisState returned : mapref) (key : string)
      (value : RawMessage) (h h' : heap) :
  bind (mapassign genesisState key value) (fun _ => ret genesisState) h
  = Some (returned, h') ->
  returned = genesisState /\
  exists l, genesisState = mapat l /\ writesOnly key l h h'.
Proof.
  unfold bind. destruct (mapassign genesisState key value h) as [[u h1]|] eqn:Hassign;
    [|done].
  unfold ret. intros [= <- <-]. split; [done|].
  apply mapassign_inv in Hassign as (l & m & -> & Hl & ->).
  exists l. split; [done|]. by apply writesOnly_insert.
Qed.

Lemma assign_then_return_None {A : Type} (genesisState : mapref) (a : A) (key : string)
      (value : RawMessage) (h : heap) :
  bind (mapassign genesisState key value) (fun _ => ret a) h = None
  <-> ~ liveMap genesisState h.
Proof.
  rewrite <- (mapassign_None genesisState key value). unfold bind.
  by destruct (mapassign genesisState key value h) as [[u h1]|].
Qed.

Lemma assign_commute (genesisState : mapref) (key1 key2 : string)
      (value1 value2 : RawMessage) (h : heap) :
  key1 <> key2 ->
  bind (bind (mapassign genesisState key1 value1) (fun _ => ret genesisState))
       (fun genesisState' =>
          bind (mapassign genesisState' key2 value2) (fun _ => ret genesisState')) h
  = bind (bind (mapassign genesisState key2 value2) (fun _ => ret genesisState))
         (fun genesisState' =>
            bind (mapassign genesisState' key1 value1) (fun _ => ret genesisState')) h.
Proof.
  intros Hne. unfold bind, ret, mapassign. destruct genesisState as [|l]; [done|].
  destruct (h !! l) as [m|] eqn:Hl; [|done]. simpl.
  rewrite !lookup_insert_eq. simpl. rewrite !insert_insert_eq.
  by rewrite (insert_insert_ne m key2 key1).
Qed.

Lemma assign_twice (genesisState : mapref) (key : string) (value1 value2 : RawMessage)
      (h : heap) :
  bind (bind (mapassign genesisState key value1) (fun _ => ret genesisState))
       (fun genesisState' =>
          bind (mapassign genesisState' key value2) (fun _ => ret genesisState')) h
  = bind (mapassign genesisState key value2) (fun _ => ret genesisState) h.
Proof.
  unfold bind, ret, mapassign. destruct genesisState as [|l]; [done|].
  destruct (h !! l) as [m|] eqn:Hl; [|done]. simpl.
  rewrite lookup_insert_eq. simpl. by rewrite !insert_insert_eq.
Qed.

(** X11: a run of [setStakingGenesisState], [setAuthGenesisState] or
    [setBankGenesisState] that completes returns the very map it was given,
    which is then a non-nil map, and has written the entry of its own module
    key only: every other entry of the genesis map, and every other map, is
    as before the call. *)
Theorem fixed_composers_write_own_key_only (evmosApp : Evmos) (genesisState : mapref)
        (h h' : heap) (returned : mapref) :
  (forall overwriteParams,
      setStakingGenesisState evmosApp genesisState overwriteParams h
      = Some (returned, h') ->
      returned = genesisState /\
      exists l, genesisState = mapat l /\ writesOnly "staking" l h h') /\
  (forall genAccounts,
      setAuthGenesisState evmosApp genesisState genAccounts h = Some (returned, h') ->
      returned = genesisState /\
      exists l, genesisState = mapat l /\ writesOnly "auth" l h h') /\
  (forall overwriteParams,
      setBankGenesisState evmosApp genesisState overwriteParams h
      = Some (returned, h') ->
      returned = genesisState /\
      exists l, genesisState = mapat l /\ writesOnly "bank" l h h').
Proof.
  split; [|split]; intros params Hrun.
  - by apply assign_then_return_inv in Hrun.
  - by apply assign_then_return_inv in Hrun.
  - by apply assign_then_return_inv in Hrun.
Qed.

(** X12: the staking, auth and bank composers commute: run one after the
    other on the same genesis map, in either order, any two of them give the
    same outcome, the same map and store or the same panic. *)
Theorem fixed_composers_commute (evmosApp1 evmosApp2 : Evmos) (genesisState : mapref)
        (staking : StakingCustomGenesisState) (genAccounts : list authtypes.GenesisAccount)
        (bank : BankCustomGenesisState) (h : heap) :
  bind (setStakingGenesisState evmosApp1 genesisState staking)
       (fun genesisState' => setAuthGenesisState evmosApp2 genesisState' genAccounts) h
  = bind (setAuthGenesisState evmosApp2 genesisState genAccounts)
         (fun genesisState' => setStakingGenesisState evmosApp1 genesisState' staking) h /\
  bind (setStakingGenesisState evmosApp1 genesisState staking)
       (fun genesisState' => setBankGenesisState evmosApp2 genesisState' bank) h
  = bind (setBankGenesisState evmosApp2 genesisState bank)
         (fun genesisState' => setStakingGenesisState evmosApp1 genesisState' staking) h /\
  bind (setAuthGenesisState evmosApp1 genesisState genAccounts)
       (fun genesisState' => setBankGenesisState evmosApp2 genesisState' bank) h
  = bind (setBankGenesisState evmosApp2 genesisState bank)
         (fun genesisState' => setAuthGenesisState evmosApp1 genesisState' genAccounts) h.
Proof.
  split; [|split]; by apply assign_commute.
Qed.

(** X13: assigning into a nil map panics.  The staking, auth and bank
    composers complete exactly when the genesis map they are given is a
    non-nil map; the inflation composer panics exactly when it is not and
    there is no override or one of the inflation genesis type; the EVM
    composer panics exactly when it is not and there is an override of the
    EVM genesis type. *)
Theorem composers_panic_on_nil_map (evmosApp : Evmos) (genesisState : mapref)
        (customGenesis : CustomGenesisState) (h : heap) :
  (forall overwriteParams,
      setStakingGenesisState evmosApp genesisState overwriteParams h = None
      <-> ~ liveMap genesisState h) /\
  (forall genAccounts,
      setAuthGenesisState evmosApp genesisState genAccounts h = None
      <-> ~ liveMap genesisState h) /\
  (forall overwriteParams,
      setBankGenesisState evmosApp genesisState overwriteParams h = None
      <-> ~ liveMap genesisState h) /\
  (setInflationGenesisState evmosApp genesisState customGenesis h = None
   <-> ~ liveMap genesisState h /\
       (customGenesis !! infltypes_ModuleName = None \/
        exists g, customGenesis !! infltypes_ModuleName = Some (InflationGenesisPtr g))) /\
  (setEVMGenesisState evmosApp genesisState customGenesis h = None
   <-> ~ liveMap genesisState h /\
       exists g, customGenesis !! evmtypes_ModuleName = Some (EvmGenesisPtr g)).
Proof.
  split; [|split; [|split; [|split]]].
  - intros params. apply assign_then_return_None.
  - intros params. apply assign_then_return_None.
  - intros params. apply assign_then_return_None.
  - unfold setInflationGenesisState.
    destruct (customGenesis !! infltypes_ModuleName) as [custGen|] eqn:Hfound.
    + destruct custGen as [g|g|T]; simpl.
      * rewrite assign_then_return_None. split.
        -- intros Hno. split; [done|]. right. by exists g.
        -- by intros [Hno _].
      * split; [done|]. by intros [_ [?|[g' ?]]].
      * split; [done|]. by intros [_ [?|[g' ?]]].
    + rewrite assign_then_return_None. split.
      * intros Hno. split; [done|]. by left.
      * by intros [Hno _].
  - unfold setEVMGenesisState.
    destruct (customGenesis !! evmtypes_ModuleName) as [custGen|] eqn:Hfound.
    + destruct custGen as [g|g|T]; simpl.
      * split; [done|]. by intros [_ [g' ?]].
      * rewrite assign_then_return_None. split.
        -- intros Hno. split; [done|]. by exists g.
        -- by intros [Hno _].
      * split; [done|]. by intros [_ [g' ?]].
    + split; [done|]. by intros [_ [g' ?]].
Qed.

(** X14: two calls of [setAuthGenesisState], or of [setBankGenesisState], on
    the same genesis map leave what the second call alone leaves: the later
    section replaces the earlier one. *)
Theorem auth_and_bank_last_write_wins (evmosApp1 evmosApp2 : Evmos)
        (genesisState : mapref) (accounts1 accounts2 : list authtypes.GenesisAccount)
        (bank1 bank2 : BankCustomGenesisState) (h : heap) :
  bind (setAuthGenesisState evmosApp1 genesisState accounts1)
       (fun genesisState' => setAuthGenesisState evmosApp2 genesisState' accounts2) h
  = setAuthGenesisState evmosApp2 genesisState accounts2 h /\
  bind (setBankGenesisState evmosApp1 genesisState bank1)
       (fun genesisState' => setBankGenesisState evmosApp2 genesisState' bank2) h
  = setBankGenesisState evmosApp2 genesisState bank2 h.
Proof.
  split; apply assign_twice.
Qed.

(** X15: a run of [setInflationGenesisState] that returns no error returns
    the very map it was given and has written the inflation entry of that map
    only; a run of [setEVMGenesisState] that returns no error returns the map
    it was given and either found no EVM override and left the store as it
    was, or has written the EVM entry of that map only. *)
Theorem custom_composers_write_own_key_only (evmosApp : Evmos) (genesisState : mapref)
        (customGenesis : CustomGenesisState) (h h' : heap) (returned : mapref) :
  (setInflationGenesisState evmosApp genesisState customGenesis h
   = Some ((returned, None), h') ->
   returned = genesisState /\
   exists l, genesisState = mapat l /\ writesOnly infltypes_ModuleName l h h') /\
  (setEVMGenesisState evmosApp genesisState customGenesis h
   = Some ((returned, None), h') ->
   returned = genesisState /\
   ((customGenesis !! evmtypes_ModuleName = None /\ h' = h) \/
    (is_Some (customGenesis !! evmtypes_ModuleName) /\
     exists l, genesisState = mapat l /\ writesOnly evmtypes_ModuleName l h h'))).
Proof.
  assert (forall key value,
             bind (mapassign genesisState key value)
                  (fun _ => ret (genesisState, @None error)) h
             = Some ((returned, None), h') ->
             returned = genesisState /\
             exists l, genesisState = mapat l /\ writesOnly key l h h') as Hassign.
  { intros key value. unfold bind.
    destruct (mapassign genesisState key value h) as [[u h1]|] eqn:Hrun; [|done].
    unfold ret. intros [= <- <-]. split; [done|].
    apply mapassign_inv in Hrun as (l & m & -> & Hl & ->).
    exists l. split; [done|]. by apply writesOnly_insert. }
  split.
  - unfold setInflationGenesisState.
    destruct (customGenesis !! infltypes_ModuleName) as [custGen|] eqn:Hfound.
    + destruct (assertInflationGenesis custGen) as [g|]; [apply Hassign|done].
    + apply Hassign.
  - unfold setEVMGenesisState.
    destruct (customGenesis !! evmtypes_ModuleName) as [custGen|] eqn:Hfound.
    + destruct (assertEvmGenesis custGen) as [g|]; [|done].
      intros [-> Hw]%Hassign. split; [done|]. right. by split.
    + unfold ret. intros [= <- <-]. split; [done|]. by left.
Qed.

End ComposersFrame.

Section SupplyOfBatches.
Import sdktypes.

Lemma calculateTotalSupply_range_nonNegative (bs : list banktypes.Balance)
      (t total : Coins) :
  nonNegative t -> Forall validBalance bs ->
  calculateTotalSupply_range t bs = Some total -> nonNegative total.
Proof.
  intros Ht Hbs. revert t Ht.
  induction Hbs as [|b bs [_ Hnb] _ IH]; intros t Ht; simpl.
  - by intros [= <-].
  - destruct (Coins_Add t (banktypes.Coins b)) as [t'|] eqn:Hadd; [|done]. simpl.
    apply IH. apply Coins_Add_inv in Hadd as (_ & _ & ->).
    apply nonNegative_coalesce. by apply Forall_app.
Qed.

(** X16: the total supply of two batches of valid balances taken together is
    the [Coins.Add] of the total supplies of the two batches: all three
    computations complete, and adding the two partial totals gives the
    total of the whole. *)
Theorem calculateTotalSupply_app (bs1 bs2 : list banktypes.Balance) :
  Forall validBalance bs1 -> Forall validBalance bs2 ->
  (forall denom, supplyOf denom (bs1 ++ bs2) < 2 ^ 256) ->
  exists total1 total2,
    calculateTotalSupply bs1 = Some total1 /\
    calculateTotalSupply bs2 = Some total2 /\
    is_Some (calculateTotalSupply (bs1 ++ bs2)) /\
    calculateTotalSupply (bs1 ++ bs2) = Coins_Add total1 total2.
Proof.
  intros Hbs1 Hbs2 Hfit.
  assert (forall d, supplyOf d bs1 < 2 ^ 256) as Hfit1.
  { intros d. specialize (Hfit d). rewrite supplyOf_app in Hfit.
    pose proof (supplyOf_nonneg d bs2 Hbs2). lia. }
  assert (forall d, supplyOf d bs2 < 2 ^ 256) as Hfit2.
  { intros d. specialize (Hfit d). rewrite supplyOf_app in Hfit.
    pose proof (supplyOf_nonneg d bs1 Hbs1). lia. }
  destruct (calculateTotalSupply_run bs1 Hbs1 Hfit1) as (total1 & Hrun1 & Hc1 & Ha1).
  destruct (calculateTotalSupply_run bs2 Hbs2 Hfit2) as (total2 & Hrun2 & Hc2 & Ha2).
  destruct (calculateTotalSupply_run (bs1 ++ bs2)) as (total & Hrun & Hc & Ha);
    [by apply Forall_app|done|].
  exists total1, total2. do 2 (split; [done|]). rewrite Hrun. split; [done|].
  assert (nonNegative total1) as Hn1.
  { apply (calculateTotalSupply_range_nonNegative bs1 [] total1);
      [constructor|done|exact Hrun1]. }
  assert (nonNegative total2) as Hn2.
  { apply (calculateTotalSupply_range_nonNegative bs2 [] total2);
      [constructor|done|exact Hrun2]. }
  rewrite Coins_Add_total.
  - f_equal. apply canonical_ext; [done|apply canonical_coalesce|].
    intros d. by rewrite amountOf_coalesce, amountOf_app, Ha, Ha1, Ha2, supplyOf_app.
  - by apply canonical_isSorted.
  - by apply canonical_isSorted.
  - done.
  - done.
  - intros d. rewrite Ha1, Ha2, <- supplyOf_app. apply Hfit.
Qed.

End SupplyOfBatches.

Section AddressStrings.
Context `{Library}.

Lemma hexDigit_inj (n m : N) :
  (n < 16)%N -> (m < 16)%N -> cmttypes.hexDigit n = cmttypes.hexDigit m -> n = m.
Proof.
  intros Hn Hm Heq. unfold cmttypes.hexDigit in Heq.
  apply (f_equal N_of_ascii) in Heq.
  rewrite !N_ascii_embedding in Heq
    by (repeat match goal with |- context [(?a <? ?b)%N] => destruct (a <? b)%N end; lia).
  destruct (n <? 10)%N eqn:Hn10, (m <? 10)%N eqn:Hm10;
    rewrite ?N.ltb_lt, ?N.ltb_ge in *; lia.
Qed.

Lemma hexByte_inj (b1 b2 : Byte.byte) :
  cmttypes.hexByte b1 = cmttypes.hexByte b2 -> b1 = b2.
Proof.
  unfold cmttypes.hexByte. intros [= Hhigh Hlow].
  pose proof (Byte.to_N_bounded b1) as Hb1. pose proof (Byte.to_N_bounded b2) as Hb2.
  apply hexDigit_inj in Hhigh;
    [|apply N.Div0.div_lt_upper_bound; lia|apply N.Div0.div_lt_upper_bound; lia].
  apply hexDigit_inj in Hlow; [|by apply N.mod_lt|by apply N.mod_lt].
  assert (Byte.to_N b1 = Byte.to_N b2) as Hto.
  { rewrite (N.div_mod (Byte.to_N b1) 16), (N.div_mod (Byte.to_N b2) 16) by done.
    by rewrite Hhigh, Hlow. }
  pose proof (Byte.of_to_N b1) as H1. pose proof (Byte.of_to_N b2) as H2.
  rewrite Hto in H1. congruence.
Qed.

Lemma Address_String_inj (a1 a2 : cmttypes.Address) :
  cmttypes.Address_String a1 = cmttypes.Address_String a2 -> a1 = a2.
Proof.
  unfold cmttypes.Address_String. intros Heq.
  apply (f_equal String.list_ascii_of_string) in Heq.
  rewrite !String.list_ascii_of_string_of_list_ascii in Heq.
  revert a2 Heq. induction a1 as [|b1 a1 IH]; intros [|b2 a2]; simpl; try done.
  intros [= Hhigh Hlow Hrest]. f_equal; [|by apply IH].
  apply hexByte_inj. unfold cmttypes.hexByte. by rewrite Hhigh, Hlow.
Qed.

Lemma signerKey_address (privVal1 privVal2 : cmttypes.PrivValidator) :
  signerKey privVal1 = signerKey privVal2
  <-> cmttypes.PubKey_Address (pubKeyOf privVal1)
      = cmttypes.PubKey_Address (pubKeyOf privVal2).
Proof.
  unfold signerKey. split; [apply Address_String_inj|by intros ->].
Qed.

Lemma NoDup_signerKey (l : list cmttypes.PrivValidator) :
  NoDup (map signerKey l)
  <-> NoDup (map (fun privVal => cmttypes.PubKey_Address (pubKeyOf privVal)) l).
Proof.
  induction l as [|x l IH]; simpl; [split; constructor|].
  rewrite !NoDup_cons, IH. apply and_iff_compat_r.
  rewrite !list_elem_of_In, !in_map_iff.
  split; intros Hno (y & Hy & Hin); apply Hno; exists y; (split; [|done]).
  - by apply signerKey_address.
  - by apply signerKey_address.
Qed.

(** X17: the key of a signer, the upper-case hexadecimal string of the
    address of its public key, has two characters per byte and identifies the
    address.  So a completed run of [createValidatorSetAndSigners] holds, for
    every signer drawn, an entry under that signer's key whose signer has the
    same address (the last one drawn with it), and holds as many entries as
    the count if and only if the addresses drawn are pairwise distinct. *)
Theorem signers_one_per_address (numberOfValidators : Z) (r r' : Entropy)
        (vs : cmttypes.ValidatorSet) (signers : gmap string cmttypes.PrivValidator) :
  createValidatorSetAndSigners numberOfValidators r = Some (vs, signers, r') ->
  (forall privVal,
      privVal ∈ drawn (Z.to_nat numberOfValidators) r ->
      String.length (signerKey privVal)
      = (2 * length (cmttypes.PubKey_Address (pubKeyOf privVal)))%nat /\
      exists filed,
        signers !! signerKey privVal = Some filed /\
        filed ∈ drawn (Z.to_nat numberOfValidators) r /\
        cmttypes.PubKey_Address (pubKeyOf filed)
        = cmttypes.PubKey_Address (pubKeyOf privVal)) /\
  (Z.of_nat (size signers) = numberOfValidators
   <-> NoDup (map (fun privVal => cmttypes.PubKey_Address (pubKeyOf privVal))
                  (drawn (Z.to_nat numberOfValidators) r))).
Proof.
  unfold createValidatorSetAndSigners.
  destruct (numberOfValidators <? 0) eqn:Hneg; [done|]. apply Z.ltb_ge in Hneg.
  destruct (createValidatorSetAndSigners_loop_drawn
              (Z.to_nat numberOfValidators) [] ∅ r) as [r1 ->].
  simpl. destruct (cmttypes_NewValidatorSet _) as [vs1|]; [|done]. simpl.
  intros [= <- <- <-].
  set (l := drawn (Z.to_nat numberOfValidators) r).
  split.
  - intros privVal Hin. split.
    + unfold signerKey, cmttypes.Address_String.
      generalize (cmttypes.PubKey_Address (pubKeyOf privVal)) as a.
      induction a as [|b a IH]; [done|]. simpl. rewrite IH. lia.
    + assert (signerKey privVal ∈ dom (fileSigners ∅ l)) as Hdom.
      { rewrite fileSigners_dom, dom_empty_L, (left_id_L ∅ (∪)).
        apply elem_of_list_to_set, list_elem_of_In, in_map, list_elem_of_In, Hin. }
      apply elem_of_dom in Hdom as [filed Hfiled]. exists filed. split; [done|].
      apply fileSigners_lookup in Hfiled as [Hempty|[Hfiled Hkey]];
        [by rewrite lookup_empty in Hempty|].
      split; [done|]. by apply signerKey_address.
  - rewrite <- NoDup_signerKey.
    assert (length (map signerKey l) = Z.to_nat numberOfValidators) as Hlen.
    { rewrite length_map. apply drawn_length. }
    assert (size (fileSigners ∅ l) = size (list_to_set (map signerKey l) : gset string))
      as Hsize.
    { rewrite <- size_dom, fileSigners_dom, dom_empty_L. by rewrite (left_id_L ∅ (∪)). }
    destruct (size_list_to_set_le (map signerKey l)) as [_ Heq].
    rewrite Hsize, <- Heq. lia.
Qed.

End AddressStrings.

(** * The helpers at work on the small instance *)

Section Runs.
Import sdktypes.

(** Two valid balances: the amounts are summed per denomination. *)
Example calculateTotalSupply_two_balances :
  calculateTotalSupply [Sample.alice; Sample.bob] = Some [mkCoin "aevmos" 12; mkCoin "stake" 2].
Proof. vm_compute. reflexivity. Qed.

Example calculateTotalSupply_reordered :
  calculateTotalSupply [Sample.bob; Sample.alice] = calculateTotalSupply [Sample.alice; Sample.bob].
Proof. vm_compute. reflexivity. Qed.

(** Outside the validated inputs: coins out of order, a total beyond 256
    bits, a negative count, a negative coin, a missing genesis map. *)
Example calculateTotalSupply_unsorted_panics :
  calculateTotalSupply [Sample.alice; Sample.unsortedBalance] = None.
Proof. vm_compute. reflexivity. Qed.

Example calculateTotalSupply_overflow_panics :
  calculateTotalSupply [Sample.hugeBalance; Sample.hugeBalance] = None.
Proof. vm_compute. reflexivity. Qed.

Example createValidatorSetAndSigners_negative_panics :
  @createValidatorSetAndSigners Sample.types Sample.library (-1) 0%nat = None.
Proof. reflexivity. Qed.

Example createBalances_negative_coin_panics :
  @createBalances Sample.types Sample.library [[Byte.x01]] (mkCoin "aevmos" (-1)) = None.
Proof. vm_compute. reflexivity. Qed.

(** The two error returns. *)
Example createStakingValidator_unsupported_key :
  @createStakingValidator Sample.types Sample.library
    (cmttypes.NewValidator (cmttypes.mkPubKey [Byte.x01] [Byte.x02] "sr25519") 1) 100
  = Err "unsupported key type".
Proof. reflexivity. Qed.

Example setEVMGenesisState_wrong_type :
  @setEVMGenesisState Sample.types Sample.library Sample.evmos (mapat 1%positive)
    {[ "evm" := OtherValue "types.GenesisState" ]} {[ 1%positive := ∅ ]}
  = Some ((nilmap, Some "invalid type types.GenesisState for evm genesis state"),
          {[ 1%positive := ∅ ]}).
Proof. vm_compute. reflexivity. Qed.

Example setStakingGenesisState_nil_map_panics :
  @setStakingGenesisState Sample.types Sample.library Sample.evmos nilmap
    (mkStakingCustomGenesisState "aevmos" [] []) ∅ = None.
Proof. reflexivity. Qed.

(** The sample instance meets the two contracts. *)
Lemma Sample_validatorSetContract : @validatorSetContract Sample.types Sample.library.
Proof.
  intros vals Hnd Hne _ _. exists (cmttypes.mkValidatorSet vals (head vals)).
  split; [|done]. simpl. unfold Sample.newValidatorSet. rewrite decide_True by done.
  assert (forallb (fun v => negb (bool_decide (cmttypes.Address_ v = []))) vals = true)
    as ->; [|done].
  apply forallb_forall. intros v Hv%list_elem_of_In.
  rewrite Forall_forall in Hne. apply negb_true_iff, bool_decide_eq_false. by apply Hne.
Qed.

Lemma Sample_mockSignerContract : @mockSignerContract Sample.types Sample.library.
Proof. intros r. reflexivity. Qed.

(** Two validators drawn on the sample instance. *)
Lemma createValidatorSetAndSigners_count_witness :
  0 <= 2 <= cmttypes.MaxTotalVotingPower /\
  distinctKeys (@drawn Sample.types Sample.library 2 0%nat) /\
  exists vs signers r',
    @createValidatorSetAndSigners Sample.types Sample.library 2 0%nat
    = Some (vs, signers, r') /\
    Z.of_nat (length (cmttypes.Validators vs)) = 2 /\
    Forall (fun v => cmttypes.VotingPower v = 1) (cmttypes.Validators vs) /\
    Z.of_nat (size signers) = 2.
Proof.
  assert (0 <= 2 <= cmttypes.MaxTotalVotingPower) as Hn by (vm_compute; split; discriminate).
  assert (distinctKeys (@drawn Sample.types Sample.library 2 0%nat)) as Hkeys.
  { split.
    - apply (bool_decide_unpack _). vm_compute. exact I.
    - repeat constructor; discriminate. }
  split; [exact Hn|]. split; [exact Hkeys|].
  destruct (@createValidatorSetAndSigners_count Sample.types Sample.library 2 0%nat
              Sample_validatorSetContract Hn Hkeys)
    as (vs & signers & r' & Hrun & Hlen & Hpow & Hsize & _).
  exists vs, signers, r'. auto.
Defined.

(** The error returns and a completed run on the sample instance. *)
Lemma errors_returned_in_two_situations_witness :
  @mockSignerContract Sample.types Sample.library /\
  @validatorSetContract Sample.types Sample.library /\
  Forall (fun err => err = None) (@droppedErrors Sample.types Sample.library 3 0%nat) /\
  (@createStakingValidator Sample.types Sample.library Sample.badValidator 100
   = Err "unsupported key type") /\
  returnsError
    (@setEVMGenesisState Sample.types Sample.library Sample.evmos (mapat Sample.genesisAt)
       {[ "evm" := OtherValue "types.GenesisState" ]} Sample.emptyStore)
    "invalid type types.GenesisState for evm genesis state" /\
  is_Some (@createBalances Sample.types Sample.library [[Byte.x01]; [Byte.x02]]
                           (sdktypes.mkCoin "aevmos" 10)).
Proof.
  split; [exact Sample_mockSignerContract|]. split; [exact Sample_validatorSetContract|].
  destruct (@errors_returned_in_two_situations Sample.types Sample.library
              Sample_mockSignerContract Sample_validatorSetContract)
    as [(Hdropped & Hone & _ & _ & Hevm) (_ & Hbalances & _)].
  split; [apply Hdropped|]. split; [|split].
  - apply Hone. reflexivity.
  - apply Hevm. exists (OtherValue "types.GenesisState").
    split; [reflexivity|]. split; [intros g; discriminate|reflexivity].
  - apply Hbalances; [reflexivity|simpl; lia].
Defined.

(** The total supply of the two sample balances, in both orders. *)
Lemma calculateTotalSupply_sum_witness :
  Forall validBalance [Sample.alice; Sample.bob] /\
  (forall denom, supplyOf denom [Sample.alice; Sample.bob] < 2 ^ 256) /\
  exists total,
    calculateTotalSupply [Sample.alice; Sample.bob] = Some total /\
    (forall denom, amountOf denom total = supplyOf denom [Sample.alice; Sample.bob]) /\
    calculateTotalSupply [Sample.bob; Sample.alice] = Some total.
Proof.
  assert (Forall validBalance [Sample.alice; Sample.bob]) as Hvalid.
  { repeat constructor; simpl; lia. }
  assert (forall denom, supplyOf denom [Sample.alice; Sample.bob] < 2 ^ 256) as Hfit.
  { intros denom. unfold supplyOf, amountOf. simpl. repeat case_decide; lia. }
  split; [exact Hvalid|]. split; [exact Hfit|].
  destruct (calculateTotalSupply_sum [Sample.alice; Sample.bob]) as [Hany Hrun].
  destruct (Hrun Hvalid Hfit) as (total & Htotal & Hperm).
  exists total. split; [exact Htotal|]. split.
  - by apply Hany.
  - apply Hperm. apply Permutation_swap.
Defined.

(** The bonded pool holding 100 aevmos next to the two sample balances. *)
Lemma addBondedModuleAccount_supply_witness :
  exists total total',
    calculateTotalSupply [Sample.alice; Sample.bob] = Some total /\
    calculateTotalSupply
      (@addBondedModuleAccountToFundedBalances Sample.types Sample.library
         [Sample.alice; Sample.bob] (mkCoin "aevmos" 100))
    = Some total' /\
    forall denom,
      amountOf denom total' = amountOf denom total + coinAmountOf denom (mkCoin "aevmos" 100).
Proof.
  destruct (@addBondedModuleAccount_supply Sample.types Sample.library
              [Sample.alice; Sample.bob] (mkCoin "aevmos" 100))
    as (entry & _ & _ & _ & _ & _ & Hsupply).
  apply Hsupply.
  - repeat constructor; simpl; lia.
  - simpl. lia.
  - intros denom. unfold supplyOf, amountOf, coinAmountOf. simpl.
    repeat case_decide; lia.
Defined.

(** A typed inflation override next to an EVM override of another type. *)
Lemma custom_override_checked_then_installed_witness :
  @setInflationGenesisState Sample.types Sample.library Sample.evmos (mapat Sample.genesisAt)
     Sample.typedInflation Sample.emptyStore
  = Some ((mapat Sample.genesisAt, None),
          <[Sample.genesisAt :=
              <["inflation" := Sample.marshal (InflationGenesisMsg Sample.weeklyInflation)]> ∅]>
            Sample.emptyStore) /\
  @setEVMGenesisState Sample.types Sample.library Sample.evmos (mapat Sample.genesisAt)
     Sample.typedInflation Sample.emptyStore
  = Some ((nilmap, Some "invalid type types.GenesisState for evm genesis state"),
          Sample.emptyStore).
Proof.
  destruct (@custom_override_checked_then_installed Sample.types Sample.library Sample.evmos
              Sample.typedInflation Sample.emptyStore) as [Hinfl Hevm].
  split.
  - destruct (Hinfl (InflationGenesisPtr Sample.weeklyInflation)) as [_ Htyped];
      [reflexivity|].
    apply (Htyped Sample.weeklyInflation Sample.genesisAt ∅); reflexivity.
  - destruct (Hevm (OtherValue "types.GenesisState")) as [Hmismatch _];
      [reflexivity|].
    apply Hmismatch. intros g. discriminate.
Defined.

(** No override at all: the default inflation section. *)
Lemma default_inflation_section_witness :
  (∅ : gmap string (@any Sample.types)) !! "inflation" = None /\
  Sample.emptyStore !! Sample.genesisAt = Some ∅ /\
  exists section,
    @setInflationGenesisState Sample.types Sample.library Sample.evmos (mapat Sample.genesisAt)
       ∅ Sample.emptyStore
    = Some ((mapat Sample.genesisAt, None),
            <[Sample.genesisAt :=
                <["inflation" := Sample.marshal (InflationGenesisMsg section)]> ∅]>
              Sample.emptyStore) /\
    EnableInflation (infl_Params section) = false /\
    infl_SkippedEpochs section = 0 /\
    infl_EpochIdentifier section = "day" /\
    infl_EpochsPerPeriod section = 365.
Proof.
  split; [reflexivity|]. split; [reflexivity|].
  destruct (@default_inflation_section Sample.types Sample.library Sample.evmos Sample.genesisAt ∅
              ∅ Sample.emptyStore)
    as (section & Hrun & Hflag & _ & Hskipped & Hid & Hper);
    [reflexivity|reflexivity|].
  exists section. auto.
Defined.

(** Staking genesis set for "stake" without validators, then for "aevmos"
    with one validator and its delegation. *)
Lemma setStakingGenesisState_overwrites_witness :
  Sample.emptyStore !! Sample.genesisAt = Some ∅ /\
  exists section,
    bind (@setStakingGenesisState Sample.types Sample.library Sample.evmos
            (mapat Sample.genesisAt) Sample.firstStaking)
         (fun genesisState' =>
            @setStakingGenesisState Sample.types Sample.library Sample.evmos genesisState'
              Sample.secondStaking)
         Sample.emptyStore
    = Some (mapat Sample.genesisAt,
            <[Sample.genesisAt :=
                <["staking" := Sample.marshal (StakingGenesisMsg section)]> ∅]>
              Sample.emptyStore) /\
    stakingtypes.BondDenom (stakingtypes.Params_ section) = "aevmos" /\
    stakingtypes.Validators section = [Sample.bondedRecord] /\
    stakingtypes.Delegations section = [Sample.selfDelegation] /\
    stakingtypes.MaxValidators (stakingtypes.Params_ section) = 100.
Proof.
  split; [reflexivity|].
  destruct (@setStakingGenesisState_overwrites Sample.types Sample.library
              Sample.evmos Sample.evmos (mapat Sample.genesisAt)
              Sample.firstStaking Sample.secondStaking Sample.emptyStore)
    as [_ Hsection].
  destruct (Hsection Sample.genesisAt ∅ eq_refl eq_refl)
    as (section & Hrun & Hdenom & Hvals & Hdels & _ & Hmax & _).
  exists section. split; [exact Hrun|]. split; [exact Hdenom|].
  split; [exact Hvals|]. split; [exact Hdels|]. exact Hmax.
Defined.

(** No EVM override: the empty genesis map stays empty. *)
Lemma setEVMGenesisState_absent_unchanged_witness :
  (∅ : gmap string (@any Sample.types)) !! "evm" = None /\
  @setEVMGenesisState Sample.types Sample.library Sample.evmos (mapat Sample.genesisAt) ∅
     Sample.emptyStore
  = Some ((mapat Sample.genesisAt, None), Sample.emptyStore).
Proof.
  split; [reflexivity|].
  apply (@setEVMGenesisState_absent_unchanged Sample.types Sample.library). reflexivity.
Defined.

(** Two validators with a convertible key. *)
Lemma createStakingValidators_records_witness :
  @pubKeyConversion Sample.types Sample.library Sample.goodValidator
  = Ok (codectypes.mkAny "/cosmos.crypto.ed25519.PubKey" (repeat Byte.x07 32)) /\
  exists records,
    @createStakingValidators Sample.types Sample.library
       [Sample.goodValidator; Sample.goodValidator] 100 = Ok records /\
    length records = 2%nat.
Proof.
  split; [reflexivity|].
  destruct (@createStakingValidators_records Sample.types Sample.library
              [Sample.goodValidator; Sample.goodValidator] 100) as [_ Hall].
  destruct Hall as (records & Hrun & Hlen & _).
  - repeat constructor; eexists; reflexivity.
  - exists records. auto.
Defined.

(** An inflation override of another type: nil map, store untouched. *)
Lemma type_mismatch_leaves_genesis_untouched_witness :
  @setInflationGenesisState Sample.types Sample.library Sample.evmos (mapat Sample.genesisAt)
     Sample.typedEvm Sample.emptyStore
  = Some ((nilmap, Some "invalid type types.GenesisState for inflation genesis state"),
          Sample.emptyStore) /\
  forall returned e h',
    @setInflationGenesisState Sample.types Sample.library Sample.evmos (mapat Sample.genesisAt)
       Sample.typedEvm Sample.emptyStore
    = Some ((returned, Some e), h') ->
    returned = nilmap /\ h' = Sample.emptyStore.
Proof.
  split; [reflexivity|].
  destruct (@type_mismatch_leaves_genesis_untouched Sample.types Sample.library Sample.evmos
              (mapat Sample.genesisAt) Sample.typedEvm Sample.emptyStore) as (Hinfl & _).
  exact Hinfl.
Defined.

(** Two addresses: the second account made. *)
Lemma createGenesisAccounts_one_per_address_witness :
  ([[Byte.x01]; [Byte.x02]] : list AccAddress) !! 1%nat = Some [Byte.x02] /\
  @createGenesisAccounts Sample.types Sample.library [[Byte.x01]; [Byte.x02]] !! 1%nat
  = Some (authtypes.mkBaseAccount "02" None 0 0).
Proof.
  split; [reflexivity|].
  destruct (@createGenesisAccounts_one_per_address Sample.types Sample.library
              [[Byte.x01]; [Byte.x02]]) as [_ Hat].
  exact (Hat 1%nat [Byte.x02] eq_refl).
Defined.

(** Two accounts funded with 10 aevmos each. *)
Lemma createBalances_one_per_account_witness :
  ValidateDenom "aevmos" = true /\
  @createBalances Sample.types Sample.library [[Byte.x01]; [Byte.x02]] (mkCoin "aevmos" 10)
  = Some [banktypes.mkBalance "01" [mkCoin "aevmos" 10];
          banktypes.mkBalance "02" [mkCoin "aevmos" 10]].
Proof.
  split; [reflexivity|].
  apply (@createBalances_one_per_account Sample.types Sample.library
           [[Byte.x01]; [Byte.x02]] (mkCoin "aevmos" 10)); [reflexivity|simpl; lia].
Defined.

(** A zero coin of an invalid denomination: balances without coins. *)
Lemma createBalances_zero_coin_witness :
  ValidateDenom "1" = false /\
  @createBalances Sample.types Sample.library [[Byte.x01]; [Byte.x02]] (mkCoin "1" 0)
  = Some [banktypes.mkBalance "01" []; banktypes.mkBalance "02" []].
Proof.
  split; [reflexivity|].
  apply (@createBalances_zero_coin Sample.types Sample.library
           [[Byte.x01]; [Byte.x02]] (mkCoin "1" 0)). reflexivity.
Defined.

(** A positive coin of an invalid denomination, with and without accounts. *)
Lemma createBalances_panics_iff_witness :
  @createBalances Sample.types Sample.library [[Byte.x01]] (mkCoin "1" 5) = None /\
  @createBalances Sample.types Sample.library [] (mkCoin "1" 5) <> None.
Proof.
  split.
  - apply (@createBalances_panics_iff Sample.types Sample.library). split; [discriminate|].
    right. split; [simpl; lia|reflexivity].
  - intros Hnone.
    apply (@createBalances_panics_iff Sample.types Sample.library) in Hnone as [Hne _].
    by apply Hne.
Defined.

(** Two accounts funded with 10 aevmos each hold 20 aevmos together. *)
Lemma createBalances_total_supply_witness :
  ValidateDenom "aevmos" = true /\
  exists fundedAccountBalances,
    @createBalances Sample.types Sample.library [[Byte.x01]; [Byte.x02]]
                    (mkCoin "aevmos" 10) = Some fundedAccountBalances /\
    calculateTotalSupply fundedAccountBalances = Some [mkCoin "aevmos" 20].
Proof.
  split; [reflexivity|].
  destruct (@createBalances_total_supply Sample.types Sample.library
              [[Byte.x01]; [Byte.x02]] (mkCoin "aevmos" 10))
    as (bs & total & Hbs & Htotal & _ & Hsingle);
    [reflexivity|simpl; lia|vm_compute; reflexivity|].
  exists bs. split; [exact Hbs|]. rewrite Htotal. f_equal. apply Hsingle. discriminate.
Defined.

(** The total of the two sample balances lists aevmos and stake. *)
Lemma calculateTotalSupply_lists_nonzero_witness :
  calculateTotalSupply [Sample.alice; Sample.bob]
  = Some [mkCoin "aevmos" 12; mkCoin "stake" 2] /\
  isSorted [mkCoin "aevmos" 12; mkCoin "stake" 2] = true /\
  supplyOf "stake" [Sample.alice; Sample.bob] <> 0 /\
  supplyOf "atom" [Sample.alice; Sample.bob] = 0.
Proof.
  assert (calculateTotalSupply [Sample.alice; Sample.bob]
          = Some [mkCoin "aevmos" 12; mkCoin "stake" 2]) as Hrun
    by (vm_compute; reflexivity).
  split; [exact Hrun|].
  destruct (calculateTotalSupply_lists_nonzero _ _ Hrun) as (_ & Hsorted & Hlist).
  split; [exact Hsorted|]. split.
  - apply Hlist. exists (mkCoin "stake" 2). split; [|reflexivity].
    apply elem_of_cons. right. apply elem_of_cons. by left.
  - reflexivity.
Defined.

(** The bonded pool holding no stake next to the two sample balances. *)
Lemma addBondedModuleAccount_zero_coin_witness :
  Forall validBalance [Sample.alice; Sample.bob] /\
  calculateTotalSupply
    (@addBondedModuleAccountToFundedBalances Sample.types Sample.library
       [Sample.alice; Sample.bob] (mkCoin "stake" 0))
  = calculateTotalSupply [Sample.alice; Sample.bob].
Proof.
  assert (Forall validBalance [Sample.alice; Sample.bob]) as Hvalid.
  { repeat constructor; simpl; lia. }
  split; [exact Hvalid|].
  apply (@addBondedModuleAccount_zero_coin Sample.types Sample.library
           [Sample.alice; Sample.bob] (mkCoin "stake" 0)); [exact Hvalid| |reflexivity].
  intros denom. unfold supplyOf, amountOf. simpl. repeat case_decide; lia.
Defined.

(** One validator: the delegation made for it. *)
Lemma createDelegations_one_per_validator_witness :
  [Sample.goodValidator] !! 0%nat = Some Sample.goodValidator /\
  @createDelegations Sample.types Sample.library [Sample.goodValidator] [Byte.x01] !! 0%nat
  = Some (stakingtypes.mkDelegation "01" "2A" (sdkmath.mkDec (10 ^ 18))).
Proof.
  split; [reflexivity|].
  destruct (@createDelegations_one_per_validator Sample.types Sample.library
              [Sample.goodValidator] [Byte.x01]) as [_ Hat].
  exact (Hat 0%nat Sample.goodValidator eq_refl).
Defined.

(** One validator with a convertible key: its record and its delegation. *)
Lemma delegations_match_staking_validators_witness :
  exists records,
    @createStakingValidators Sample.types Sample.library [Sample.goodValidator] 100
    = Ok records /\
    Forall2 (fun delegation v =>
               stakingtypes.ValidatorAddress delegation = stakingtypes.OperatorAddress v /\
               stakingtypes.Shares delegation = stakingtypes.DelegatorShares v /\
               stakingtypes.Tokens v = 100)
            (@createDelegations Sample.types Sample.library [Sample.goodValidator] [Byte.x01])
            records.
Proof.
  eexists. split; [reflexivity|].
  apply (@delegations_match_staking_validators Sample.types Sample.library). reflexivity.
Defined.

(** Two signers drawn on the sample instance: two entries. *)
Lemma createValidatorSetAndSigners_signers_witness :
  exists vs signers r',
    @createValidatorSetAndSigners Sample.types Sample.library 2 0%nat
    = Some (vs, signers, r') /\
    Z.of_nat (size signers) <= 2 /\
    (forall k privVal,
        signers !! k = Some privVal ->
        k = @signerKey privVal).
Proof.
  destruct (@createValidatorSetAndSigners Sample.types Sample.library 2 0%nat)
    as [[[vs signers] r']|] eqn:Hrun; [|vm_compute in Hrun; discriminate].
  exists vs, signers, r'. split; [reflexivity|].
  destruct (@createValidatorSetAndSigners_signers Sample.types Sample.library
              2 0%nat r' vs signers Hrun) as (_ & Hfiled & Hsize & _).
  split; [exact Hsize|]. intros k privVal Hk. by destruct (Hfiled k privVal Hk).
Defined.

(** The staking composer on the empty genesis map. *)
Lemma fixed_composers_write_own_key_only_witness :
  exists returned h',
    @setStakingGenesisState Sample.types Sample.library Sample.evmos
       (mapat Sample.genesisAt) Sample.firstStaking Sample.emptyStore
    = Some (returned, h') /\
    returned = mapat Sample.genesisAt /\
    writesOnly "staking" Sample.genesisAt Sample.emptyStore h'.
Proof.
  destruct (@setStakingGenesisState Sample.types Sample.library Sample.evmos
              (mapat Sample.genesisAt) Sample.firstStaking Sample.emptyStore)
    as [[returned h']|] eqn:Hrun; [|vm_compute in Hrun; discriminate].
  exists returned, h'. split; [reflexivity|].
  destruct (@fixed_composers_write_own_key_only Sample.types Sample.library Sample.evmos
              (mapat Sample.genesisAt) Sample.emptyStore h' returned) as [Hstaking _].
  destruct (Hstaking _ Hrun) as (Hsame & l & Hl & Hwrites).
  split; [exact Hsame|]. injection Hl as <-. exact Hwrites.
Defined.

(** The composers on a nil map. *)
Lemma composers_panic_on_nil_map_witness :
  @setStakingGenesisState Sample.types Sample.library Sample.evmos nilmap
     Sample.firstStaking Sample.emptyStore = None /\
  @setEVMGenesisState Sample.types Sample.library Sample.evmos nilmap
     Sample.typedEvm Sample.emptyStore = None /\
  @setEVMGenesisState Sample.types Sample.library Sample.evmos nilmap
     Sample.typedInflation Sample.emptyStore <> None.
Proof.
  destruct (@composers_panic_on_nil_map Sample.types Sample.library Sample.evmos nilmap
              Sample.typedEvm Sample.emptyStore) as (Hstaking & _ & _ & _ & Hevm).
  destruct (@composers_panic_on_nil_map Sample.types Sample.library Sample.evmos nilmap
              Sample.typedInflation Sample.emptyStore) as (_ & _ & _ & _ & Hother).
  assert (~ liveMap nilmap Sample.emptyStore) as Hnil by (intros (l & Hl & _); discriminate).
  split; [by apply Hstaking|]. split.
  - apply Hevm. split; [exact Hnil|]. by exists 7.
  - intros Hnone. apply Hother in Hnone as [_ [g Hg]]. discriminate.
Defined.

(** The EVM composer with an override of the EVM genesis type. *)
Lemma custom_composers_write_own_key_only_witness :
  exists returned h',
    @setEVMGenesisState Sample.types Sample.library Sample.evmos
       (mapat Sample.genesisAt) Sample.typedEvm Sample.emptyStore
    = Some ((returned, None), h') /\
    returned = mapat Sample.genesisAt /\
    writesOnly "evm" Sample.genesisAt Sample.emptyStore h'.
Proof.
  destruct (@setEVMGenesisState Sample.types Sample.library Sample.evmos
              (mapat Sample.genesisAt) Sample.typedEvm Sample.emptyStore)
    as [[[returned [e|]] h']|] eqn:Hrun;
    [vm_compute in Hrun; discriminate| |vm_compute in Hrun; discriminate].
  exists returned, h'. split; [reflexivity|].
  destruct (@custom_composers_write_own_key_only Sample.types Sample.library Sample.evmos
              (mapat Sample.genesisAt) Sample.typedEvm Sample.emptyStore h' returned)
    as [_ Hevm].
  destruct (Hevm Hrun) as (Hsame & [[Habsent _]|(_ & l & Hl & Hwrites)]);
    [discriminate|].
  split; [exact Hsame|]. injection Hl as <-. exact Hwrites.
Defined.

(** The two sample balances as two batches. *)
Lemma calculateTotalSupply_app_witness :
  Forall validBalance [Sample.alice] /\ Forall validBalance [Sample.bob] /\
  calculateTotalSupply ([Sample.alice] ++ [Sample.bob])
  = Coins_Add [mkCoin "aevmos" 5; mkCoin "stake" 2] [mkCoin "aevmos" 7].
Proof.
  assert (Forall validBalance [Sample.alice]) as Ha by (repeat constructor; simpl; lia).
  assert (Forall validBalance [Sample.bob]) as Hb by (repeat constructor; simpl; lia).
  split; [exact Ha|]. split; [exact Hb|].
  destruct (calculateTotalSupply_app [Sample.alice] [Sample.bob] Ha Hb)
    as (total1 & total2 & H1 & H2 & _ & Hsum).
  - intros denom. unfold supplyOf, amountOf. simpl. repeat case_decide; lia.
  - vm_compute in H1. vm_compute in H2. injection H1 as <-. injection H2 as <-.
    exact Hsum.
Defined.

(** Two signers drawn on the sample instance: addresses of one and two
    bytes, keys of two and four characters. *)
Lemma signers_one_per_address_witness :
  exists vs signers r',
    @createValidatorSetAndSigners Sample.types Sample.library 2 0%nat
    = Some (vs, signers, r') /\
    Z.of_nat (size signers) = 2 /\
    is_Some (signers !! "2A2A").
Proof.
  destruct (@createValidatorSetAndSigners Sample.types Sample.library 2 0%nat)
    as [[[vs signers] r']|] eqn:Hrun; [|vm_compute in Hrun; discriminate].
  exists vs, signers, r'. split; [reflexivity|].
  destruct (@signers_one_per_address Sample.types Sample.library
              2 0%nat r' vs signers Hrun) as [Hfiled Hsize].
  split.
  - apply Hsize. apply (bool_decide_unpack _). vm_compute. exact I.
  - destruct (Hfiled (Sample.signer 1)) as (_ & filed & Hat & _).
    + apply elem_of_cons. right. apply elem_of_cons. by left.
    + exists filed. exact Hat.
Defined.

End Runs.
